(** * process_sanctions: a shallow embedding of the UK sanctions list processor

    The development follows [process_sanctions.py]: text primitives of the
    Python runtime, the regular expressions the script compiles, the per-row
    helper functions, the per-group aggregation, the post-aggregation passes,
    the final checks and the pipeline of [main].

    Conventions.
    - A Python [str] is a sequence of Unicode code points: [pystr := list N].
      Comparison of two [str] is lexicographic on code points.
    - A cell of a pandas column is [option _]: [None] stands for NaN / pd.NA /
      None / NaT, whichever the column's dtype uses.
    - The parts of the Unicode character database that cannot be written out
      here (decimal digits, word characters and lower-case mappings outside
      ASCII) are a parameter [unicode_db]; the ASCII range is spelled out.
    - Exceptions are values of [exn]; a computation that may raise returns
      [result _]. *)

From Stdlib Require Import ZArith NArith List Bool Lia String Ascii.
From Stdlib Require Import Permutation Sorted FinFun.
From stdpp Require Import base tactics decidable option list sorting pretty.
Import ListNotations.

Local Open Scope N_scope.

(** ** Text *)

Definition char := N.
Definition pystr := list char.

(** The code points of a literal written in UTF-8. *)
Fixpoint utf8_decode (bs : list N) : pystr :=
  match bs with
  | [] => []
  | b :: r =>
    if b <? 128 then b :: utf8_decode r
    else if b <? 224 then
      match r with
      | b2 :: r' => ((b - 192) * 64 + (b2 - 128)) :: utf8_decode r'
      | _ => []
      end
    else if b <? 240 then
      match r with
      | b2 :: b3 :: r' =>
        ((b - 224) * 4096 + (b2 - 128) * 64 + (b3 - 128)) :: utf8_decode r'
      | _ => []
      end
    else
      match r with
      | b2 :: b3 :: b4 :: r' =>
        ((b - 240) * 262144 + (b2 - 128) * 4096 + (b3 - 128) * 64 + (b4 - 128))
          :: utf8_decode r'
      | _ => []
      end
  end.

Definition bytes_of_string (s : string) : list N :=
  map N_of_ascii (list_ascii_of_string s).

Definition lit (s : string) : pystr := utf8_decode (bytes_of_string s).

(** [str.isspace] of one character; also the class [\s] of [re] on [str]
    patterns. *)
Definition isspace (c : char) : bool :=
  ((9 <=? c) && (c <=? 13)) || ((28 <=? c) && (c <=? 32))
  || (c =? 133) || (c =? 160) || (c =? 5760)
  || ((8192 <=? c) && (c <=? 8202))
  || (c =? 8232) || (c =? 8233) || (c =? 8239) || (c =? 8287) || (c =? 12288).

Fixpoint drop_while {A} (p : A -> bool) (l : list A) : list A :=
  match l with
  | [] => []
  | x :: l' => if p x then drop_while p l' else l
  end.


(** [s.lstrip(chars)], [s.rstrip(chars)] with the set of characters given
    as a predicate; [s.strip()] is [strip_by isspace]. *)
Definition lstrip_by (p : char -> bool) (s : pystr) : pystr := drop_while p s.
Definition rstrip_by (p : char -> bool) (s : pystr) : pystr :=
  rev (drop_while p (rev s)).
Definition strip_by (p : char -> bool) (s : pystr) : pystr :=
  rstrip_by p (lstrip_by p s).
Definition strip (s : pystr) : pystr := strip_by isspace s.

Definition in_chars (chars : pystr) (c : char) : bool :=
  existsb (N.eqb c) chars.

Fixpoint startswith (p s : pystr) : bool :=
  match p, s with
  | [], _ => true
  | _ :: _, [] => false
  | a :: p', b :: s' => (a =? b) && startswith p' s'
  end.

Fixpoint str_eqb (a b : pystr) : bool :=
  match a, b with
  | [], [] => true
  | x :: a', y :: b' => (x =? y) && str_eqb a' b'
  | _, _ => false
  end.

(** [a <= b] on [str]. *)
Fixpoint str_leb (a b : pystr) : bool :=
  match a, b with
  | [], _ => true
  | _ :: _, [] => false
  | x :: a', y :: b' =>
    if x <? y then true else if x =? y then str_leb a' b' else false
  end.

Definition str_le (a b : pystr) : Prop := str_leb a b = true.

(** [sep.join(parts)]. *)
Fixpoint join (sep : pystr) (parts : list pystr) : pystr :=
  match parts with
  | [] => []
  | [p] => p
  | p :: rest => p ++ sep ++ join sep rest
  end.

(** The Unicode data that is not spelled out: for a code point of 128 or
    more, its decimal value when it is a decimal digit (category Nd), whether
    it is a word character ([\w]), and its lower-case mapping. *)
Record unicode_db := {
  ucd_decimal : char -> option Z;
  ucd_word : char -> bool;
  ucd_lower : char -> pystr
}.

(** A database that knows nothing beyond ASCII. *)
Definition ascii_db : unicode_db :=
  {| ucd_decimal := fun _ => None;
     ucd_word := fun _ => false;
     ucd_lower := fun c => [c] |}.

Definition is_ascii_digit (c : char) : bool := (48 <=? c) && (c <=? 57).
Definition is_ascii_upper (c : char) : bool := (65 <=? c) && (c <=? 90).
Definition is_ascii_lower (c : char) : bool := (97 <=? c) && (c <=? 122).

Section Unicode.
Variable U : unicode_db.

(** The class [\d] of [re], which is [str.isdecimal]. *)
Definition isdecimal (c : char) : bool :=
  if c <? 128 then is_ascii_digit c else bool_decide (is_Some (ucd_decimal U c)).

Definition digit_value (c : char) : Z :=
  if c <? 128 then Z.of_N (c - 48) else default 0%Z (ucd_decimal U c).

(** The class [\w] of [re]: alphanumeric or underscore. *)
Definition isword (c : char) : bool :=
  if c <? 128 then
    is_ascii_digit c || is_ascii_upper c || is_ascii_lower c || (c =? 95)
  else ucd_word U c.

Definition lower_char (c : char) : pystr :=
  if c <? 128 then (if is_ascii_upper c then [c + 32] else [c])
  else ucd_lower U c.

(** [s.lower()]. *)
Definition lower (s : pystr) : pystr := flat_map lower_char s.

(** [int(s)] on a non-empty run of decimal digits. *)
Definition int_of_digits (s : pystr) : Z :=
  fold_left (fun acc c => (acc * 10 + digit_value c)%Z) s 0%Z.
End Unicode.

(** [str(n)] of a Python integer. *)
Definition str_of_int (z : Z) : pystr := bytes_of_string (pretty z).

(** [pd.isna] / [pd.notna] on a cell. *)
Definition isna {A} (v : option A) : bool := negb (bool_decide (is_Some v)).
Definition notna {A} (v : option A) : bool := bool_decide (is_Some v).

(** [Series.dropna()]. *)
Definition dropna {A} (series : list (option A)) : list A := omap id series.

(** ** Column dtypes

    The values of one column share a dtype; [str(val)] of two different
    values of one dtype differs. The script's columns hold text ("string" or
    object dtype) or nullable integers ("Int64"). *)

Lemma bytes_of_string_inj (a b : string) :
  bytes_of_string a = bytes_of_string b -> a = b.
Proof.
  unfold bytes_of_string. intros H.
  rewrite <- (string_of_list_ascii_of_string a), <- (string_of_list_ascii_of_string b).
  f_equal.
  generalize dependent (list_ascii_of_string b).
  induction (list_ascii_of_string a) as [|x l IH]; intros [|y l'] H;
    simpl in H; try discriminate; auto.
  injection H as Hxy Hl. f_equal; auto.
  rewrite <- (ascii_N_embedding x), <- (ascii_N_embedding y). now rewrite Hxy.
Qed.

Lemma str_of_int_inj (x y : Z) : str_of_int x = str_of_int y -> x = y.
Proof.
  unfold str_of_int. intros H. apply bytes_of_string_inj in H.
  now apply (inj pretty) in H.
Qed.

Class Dtype (A : Type) := {
  dtype_eq_dec :: EqDecision A;
  py_str : A -> pystr;
  py_str_inj : forall x y, py_str x = py_str y -> x = y
}.

#[global] Instance dtype_string : Dtype pystr :=
  {| py_str := fun s => s; py_str_inj := fun x y H => H |}.

#[global] Instance dtype_int64 : Dtype Z :=
  {| py_str := str_of_int; py_str_inj := str_of_int_inj |}.

(** [Series.unique()] / [pd.unique]: the distinct values in order of first
    appearance. *)
Fixpoint unique {A} `{EqDecision A} (l : list A) : list A :=
  match l with
  | [] => []
  | x :: l' => x :: List.filter (fun y => negb (bool_decide (y = x))) (unique l')
  end.

#[global] Instance str_le_dec (a b : pystr) : Decision (str_le a b) :=
  bool_eq_dec (str_leb a b) true.

(** [sorted(l)] on a list of [str]. *)
Definition sorted (l : list pystr) : list pystr := merge_sort str_le l.

(** [x in seq] for a sequence of [str]. *)
Definition str_in (x : pystr) (seq : list pystr) : bool := existsb (str_eqb x) seq.

Definition LIST_DELIMITER : pystr := lit "; ".

(** ** Helper functions *)

Section Helpers.
Variable U : unicode_db.

Definition is_null_sentinel (val : pystr) : bool :=
  str_in (lower U (strip val)) [lit "nan"; lit "none"; lit "<na>"; lit "nat"].

(** [get_unique_sorted_list(series)]. No operation in the body raises on a
    column of text or integers, so the [except] branch is not reached. *)
Definition get_unique_sorted_list {A} `{Dtype A} (series : list (option A))
  : option (list pystr) :=
  let unique_vals := unique (dropna series) in
  let valid_vals_str := map py_str unique_vals in
  let valid_vals_filtered :=
    List.filter (fun val => negb (is_null_sentinel val)) valid_vals_str in
  if (0 <? length valid_vals_filtered)%nat
  then Some (sorted valid_vals_filtered)
  else None.

End Helpers.

(** ** Exceptions *)

Inductive exn := ValueError | TypeError | KeyError | IndexError.

Inductive result (A : Type) :=
| Ok (a : A)
| Raise (e : exn).
Arguments Ok {A} a.
Arguments Raise {A} e.

#[global] Instance result_ret : MRet result := fun A a => Ok a.
#[global] Instance result_bind : MBind result := fun A B k m =>
  match m with
  | Ok a => k a
  | Raise e => Raise e
  end.

Definition exn_eqb (a b : exn) : bool :=
  match a, b with
  | ValueError, ValueError | TypeError, TypeError
  | KeyError, KeyError | IndexError, IndexError => true
  | _, _ => false
  end.

(** [try: body except (caught...): handler]. An exception that is not listed
    propagates. *)
Definition try_except {A} (body : result A) (caught : list exn)
  (handler : result A) : result A :=
  match body with
  | Ok a => Ok a
  | Raise e => if existsb (exn_eqb e) caught then handler else Raise e
  end.

(** ** Regular expressions

    The patterns of the script use literals, character classes, sequence,
    alternation, greedy and lazy repetition, groups and the anchors [^] and
    [$]. [run r st] lists the states in which a backtracking matcher can leave
    [r] when started in [st], in the order in which it tries them; the match
    that [re.match] reports is the first one. *)

Inductive regex :=
| Chr (p : char -> bool)
| Eps
| Seq (r1 r2 : regex)
| Alt (r1 r2 : regex)
| Star (greedy : bool) (r : regex)
| Group (n : nat) (r : regex)
| Bos
| Eos.

Record mstate := {
  pos : nat;                      (* characters consumed so far *)
  rest : pystr;                   (* the input that is left *)
  groups : list (nat * pystr)     (* text of the groups, latest first *)
}.

Definition advance (st : mstate) (s' : pystr) : mstate :=
  {| pos := S (pos st); rest := s'; groups := groups st |}.

Definition set_group (n : nat) (from : mstate) (st : mstate) : mstate :=
  {| pos := pos st; rest := rest st;
     groups := (n, firstn (pos st - pos from) (rest from)) :: groups st |}.

(** Repetition of [step]. Every iteration of a repeated sub-pattern of the
    script consumes a character, so [length (rest st)] iterations are enough;
    an iteration that consumed nothing is not repeated. *)
Fixpoint star_loop (step : mstate -> list mstate) (greedy : bool)
  (fuel : nat) (st : mstate) : list mstate :=
  match fuel with
  | O => [st]
  | S fuel' =>
    let more :=
      flat_map (fun st' =>
                  if (length (rest st') <? length (rest st))%nat
                  then star_loop step greedy fuel' st'
                  else [])
               (step st) in
    if greedy then more ++ [st] else st :: more
  end.

Fixpoint run (r : regex) (st : mstate) : list mstate :=
  match r with
  | Chr p =>
    match rest st with
    | c :: s' => if p c then [advance st s'] else []
    | [] => []
    end
  | Eps => [st]
  | Seq r1 r2 => flat_map (run r2) (run r1 st)
  | Alt r1 r2 => run r1 st ++ run r2 st
  | Star greedy r1 => star_loop (run r1) greedy (length (rest st)) st
  | Group n r1 => map (set_group n st) (run r1 st)
  | Bos => if (pos st =? 0)%nat then [st] else []
  | Eos =>
    match rest st with
    | [] => [st]
    | [c] => if c =? 10 then [st] else []
    | _ => []
    end
  end.

(** [re.match(r, s)]: the first way to match [r] at the start of [s]. *)
Definition re_match (r : regex) (s : pystr) : option mstate :=
  head (run r {| pos := 0; rest := s; groups := [] |}).

(** [m.group(n)]; [None] when the group took no part in the match. *)
Fixpoint assoc (n : nat) (l : list (nat * pystr)) : option pystr :=
  match l with
  | [] => None
  | (k, v) :: l' => if (k =? n)%nat then Some v else assoc n l'
  end.

Definition group (m : mstate) (n : nat) : option pystr := assoc n (groups m).

Declare Scope regex_scope.
Delimit Scope regex_scope with re.
Notation "a +> b" := (Seq a b) (at level 60, right associativity) : regex_scope.

Definition Lit (s : string) : regex :=
  fold_right (fun c r => Seq (Chr (N.eqb c)) r) Eps (lit s).
Definition Range (lo hi : string) : regex :=
  match lit lo, lit hi with
  | [a], [b] => Chr (fun c => (a <=? c) && (c <=? b))
  | _, _ => Chr (fun _ => false)
  end.
Definition Dot : regex := Chr (fun c => negb (c =? 10)).
Definition Space : regex := Chr isspace.
Definition Opt (r : regex) : regex := Alt r Eps.
Definition Plus (r : regex) : regex := Seq r (Star true r).
Fixpoint Times (n : nat) (r : regex) : regex :=
  match n with
  | O => Eps
  | S n' => Seq r (Times n' r)
  end.
(** [r{lo,lo+extra}], greedy. *)
Fixpoint UpTo (extra : nat) (r : regex) : regex :=
  match extra with
  | O => Eps
  | S e => Opt (Seq r (UpTo e r))
  end.
Definition Between (lo extra : nat) (r : regex) : regex :=
  Seq (Times lo r) (UpTo extra r).

(** ** Dates

    A [date] is what a pandas [Timestamp] at midnight holds. *)

Record date := { year : Z; month : Z; day : Z }.

Local Open Scope Z_scope.

Definition is_leap (y : Z) : bool :=
  ((y mod 4 =? 0) && negb (y mod 100 =? 0)) || (y mod 400 =? 0).

Definition days_in_month (y m : Z) : Z :=
  if m =? 2 then (if is_leap y then 29 else 28)
  else if (m =? 4) || (m =? 6) || (m =? 9) || (m =? 11) then 30
  else 31.

Definition date_leb (a b : date) : bool :=
  if year a <? year b then true
  else if year a =? year b then
    (if month a <? month b then true
     else if month a =? month b then day a <=? day b
     else false)
  else false.

(** The calendar checks of [datetime.date(y, m, d)]. *)
Definition valid_ymd (y m d : Z) : bool :=
  (1 <=? y) && (y <=? 9999) && (1 <=? m) && (m <=? 12)
  && (1 <=? d) && (d <=? days_in_month y m).

(** Midnight of the day lies between [Timestamp.min] (1677-09-21 00:12:43)
    and [Timestamp.max] (2262-04-11 23:47:16). *)
Definition in_timestamp_bounds (t : date) : bool :=
  date_leb {| year := 1677; month := 9; day := 22 |} t
  && date_leb t {| year := 2262; month := 4; day := 11 |}.

(** [pd.Timestamp(year=y, month=m, day=d)]: [ValueError] for fields that are
    no calendar date, [OutOfBoundsDatetime], a [ValueError], outside the
    representable range. *)
Definition Timestamp (y m d : Z) : result date :=
  if valid_ymd y m d then
    let t := {| year := y; month := m; day := d |} in
    if in_timestamp_bounds t then Ok t else Raise ValueError
  else Raise ValueError.

Section Parsing.
Variable U : unicode_db.

Definition Digit : regex := Chr (isdecimal U).
Definition Word : regex := Chr (isword U).

(** [int(s)] on a captured group: [TypeError] on [None], [ValueError] unless
    [s] is a non-empty run of decimal digits (the only text the patterns
    below capture). *)
Definition int (s : option pystr) : result Z :=
  match s with
  | None => Raise TypeError
  | Some s =>
    if negb (Nat.eqb (length s) 0) && forallb (isdecimal U) s
    then Ok (int_of_digits U s)
    else Raise ValueError
  end.

(** The pattern that strptime builds for the format ["%d/%m/%Y"]:
    r"(?P<d>3[0-1]|[1-2]\d|0[1-9]|[1-9]| [1-9])/(?P<m>1[0-2]|0[1-9]|[1-9])/(?P<Y>\d\d\d\d)";
    the groups d, m and Y are numbered 1, 2 and 3. *)
Definition strptime_dmY : regex :=
  (Group 1 (Alt (Lit "3" +> Range "0" "1")
           (Alt (Range "1" "2" +> Digit)
           (Alt (Lit "0" +> Range "1" "9")
           (Alt (Range "1" "9")
                (Lit " " +> Range "1" "9")))))
   +> Lit "/"
   +> Group 2 (Alt (Lit "1" +> Range "0" "2")
              (Alt (Lit "0" +> Range "1" "9")
                   (Range "1" "9")))
   +> Lit "/"
   +> Group 3 (Times 4 Digit))%re.

Definition nat_strings : list pystr :=
  [lit "NaT"; lit "nat"; lit "NAT"; lit "nan"; lit "NaN"; lit "NAN"].

(** [pd.to_datetime(val, format="%d/%m/%Y", errors="raise")] on one string:
    the empty string and the NaT spellings give NaT; the whole string must
    match the format and name a calendar date within the bounds. *)
Definition to_datetime_dmY (val : pystr) : result (option date) :=
  if Nat.eqb (length val) 0 || str_in val nat_strings then Ok None
  else
    match re_match strptime_dmY val with
    | None => Raise ValueError
    | Some found =>
      if negb (Nat.eqb (pos found) (length val)) then Raise ValueError
      else
        d ← int (group found 1);
        m ← int (group found 2);
        y ← int (group found 3);
        t ← Timestamp y m d;
        Ok (Some t)
    end.

(** The pattern r"^00/(\d{1,2})/(\d{4})$". *)
Definition pattern_00_mm : regex :=
  (Bos +> Lit "00/" +> Group 1 (Between 1 1 Digit) +> Lit "/"
       +> Group 2 (Times 4 Digit) +> Eos)%re.

(** The pattern r"^00/00/(\d{4})$". *)
Definition pattern_00_00 : regex :=
  (Bos +> Lit "00/00/" +> Group 1 (Times 4 Digit) +> Eos)%re.

Definition in_year_range (current_year y : Z) : bool :=
  (1900 <=? y) && (y <=? current_year).

(** [parse_dob_comprehensive(dob_str)]; [current_year] is
    [pd.Timestamp.now().year]. *)
Definition parse_dob_comprehensive (current_year : Z) (dob_str : option pystr)
  : result (option date * pystr) :=
  match dob_str with
  | None => Ok (None, lit "Missing")
  | Some raw =>
    if str_eqb (lower U (strip raw)) (lit "nan") then Ok (None, lit "Missing")
    else
      let dob_str := strip raw in
      let parsed_date : option date := None in
      let precision := lit "Unknown/Failed" in
      st ← try_except
        (if negb (startswith (lit "00/") dob_str) then
           temp_date ← to_datetime_dmY dob_str;
           match temp_date with
           | Some t =>
             if in_year_range current_year (year t)
             then Ok (Some t, lit "Full Date")
             else Ok (parsed_date, precision)
           | None => Ok (parsed_date, precision)
           end
         else Ok (parsed_date, precision))
        [ValueError; TypeError]
        (Ok (parsed_date, precision));
      let '(parsed_date, precision) := st in
      st ← (if isna parsed_date then
              match re_match pattern_00_mm dob_str with
              | Some match_00_mm =>
                month ← int (group match_00_mm 1);
                year ← int (group match_00_mm 2);
                if (1 <=? month) && (month <=? 12)
                   && in_year_range current_year year
                then
                  try_except
                    (t ← Timestamp year month 1;
                     Ok (Some t, lit "Month/Year Only"))
                    [ValueError]
                    (Ok (parsed_date, precision))
                else Ok (parsed_date, precision)
              | None => Ok (parsed_date, precision)
              end
            else Ok (parsed_date, precision));
      let '(parsed_date, precision) := st in
      st ← (if isna parsed_date then
              match re_match pattern_00_00 dob_str with
              | Some match_00_00 =>
                year ← int (group match_00_00 1);
                if in_year_range current_year year then
                  try_except
                    (t ← Timestamp year 1 1;
                     Ok (Some t, lit "Year Only"))
                    [ValueError]
                    (Ok (parsed_date, precision))
                else Ok (parsed_date, precision)
              | None => Ok (parsed_date, precision)
              end
            else Ok (parsed_date, precision));
      let '(parsed_date, precision) := st in
      let precision :=
        if isna parsed_date && str_eqb precision (lit "Unknown/Failed")
        then lit "Unknown/Failed" else precision in
      Ok (parsed_date, precision)
  end.

(** [country_extract_pattern], written with a blank between its parts:
    [^  (?: \( \w{1,3} \) \s* )*  ( .*? )  ( \s* \( \d+ \) .* )*  $].
    The non-capturing group is the first [Star]. *)
Definition country_extract_pattern : regex :=
  (Bos
   +> Star true (Lit "(" +> Between 1 2 Word +> Lit ")" +> Star true Space)
   +> Group 1 (Star false Dot)
   +> Star true (Group 2 (Star true Space +> Lit "(" +> Plus Digit +> Lit ")"
                          +> Star true Dot))
   +> Eos)%re.

(** [clean_country_string(country_str)] *)
Definition clean_country_string (country_str : option pystr) : option pystr :=
  match country_str with
  | None => None
  | Some country_str =>
    let cleaned_name :=
      match re_match country_extract_pattern country_str with
      | Some m => strip (default [] (group m 1))
      | None => strip country_str
      end in
    let cleaned_name :=
      if negb (Nat.eqb (length cleaned_name) 0)
      then rstrip_by (in_chars (lit "., ")) cleaned_name
      else cleaned_name in
    if negb (Nat.eqb (length cleaned_name) 0) then Some cleaned_name else None
  end.

End Parsing.

(** ** The input frame

    One record per line of the CSV, one field per column the script reads.
    Text columns are read as text; [Group ID] is a number or missing. *)

Record RawRow := {
  Group_ID : option Z;
  Alias_Type : option pystr;
  Group_Type : option pystr;
  Regime : option pystr;
  Title : option pystr;
  Name_1 : option pystr;
  Name_2 : option pystr;
  Name_3 : option pystr;
  Name_4 : option pystr;
  Name_5 : option pystr;
  Name_6 : option pystr;
  Name_Non_Latin_Script : option pystr;
  DOB : option pystr;
  Country_of_Birth : option pystr;
  Nationality : option pystr;
  Country : option pystr;
  Position : option pystr;
  Passport_Number : option pystr;
  National_Identification_Number : option pystr;
  Address_1 : option pystr;
  Address_2 : option pystr;
  Address_3 : option pystr;
  Address_4 : option pystr;
  Address_5 : option pystr;
  Address_6 : option pystr;
  Post_Zip_Code : option pystr;
  Listed_On : option pystr;
  UK_Sanctions_List_Date_Designated : option pystr;
  Last_Updated : option pystr
}.

(** A row of the frame after steps 2 to 4 of [main]: the columns of the CSV
    (country columns cleaned in place) and the columns those steps add. *)
Record Row := {
  cols : RawRow;
  DOB_raw : option pystr;
  DOB_parsed : option date;
  DOB_Precision : option pystr;
  DOB_year : option Z;
  Constructed_Name : option pystr;
  Name_Non_Latin_Raw : option pystr
}.

(** [construct_full_name(row)] *)
Definition construct_full_name (row : RawRow) : option pystr :=
  let name_parts :=
    (match Title row with Some t => [strip t] | None => [] end)
    ++ flat_map (fun cell => match cell with Some n => [strip n] | None => [] end)
         [Name_1 row; Name_2 row; Name_3 row; Name_4 row; Name_5 row; Name_6 row] in
  let name_parts :=
    List.filter (fun part => negb (Nat.eqb (length part) 0)) name_parts in
  if negb (Nat.eqb (length name_parts) 0)
  then Some (join (lit " ") name_parts) else None.

(** ** Aggregation *)

(** A metadata date cell: text as read, or a date once
    [convert_metadata_dates] has run. *)
Inductive meta_cell :=
| MText (s : pystr)
| MDate (d : date).

(** One row of the aggregated frame: the key [Group ID] that [reset_index]
    turns into a column, and the entries of [final_data]. *)
Record AggRow := {
  agg_Group_ID : option Z;
  Primary_Name : option pystr;
  Aliases : option pystr;
  Primary_Name_Non_Latin : option pystr;
  Aliases_Non_Latin : option pystr;
  agg_Group_Type : option pystr;
  agg_Regime : option pystr;
  DOB_Raw_Agg : option pystr;
  DOB_Parsed_Agg : option pystr;
  DOB_Year_Agg : option pystr;
  DOB_Precision_Agg : option pystr;
  Countries_of_Birth : option pystr;
  Nationalities : option pystr;
  Countries_Address : option pystr;
  All_Associated_Countries : option pystr;
  Positions : option pystr;
  Passport_Numbers_Agg : option pystr;
  National_IDs_Agg : option pystr;
  Full_Address_Agg : option pystr;
  agg_Listed_On : option meta_cell;
  agg_UK_Sanctions_List_Date_Designated : option meta_cell;
  agg_Last_Updated : option meta_cell
}.

(** [series == text], cell by cell: a missing cell is not equal. *)
Definition cell_eqb (cell : option pystr) (text : pystr) : bool :=
  match cell with
  | Some s => str_eqb s text
  | None => false
  end.

(** [df.iloc[0]] / [series.iloc[0]]. *)
Definition iloc0 {A} (l : list A) : result A :=
  match l with
  | x :: _ => Ok x
  | [] => Raise IndexError
  end.

(** Truth value of a [str] or [None]. *)
Definition truthy (v : option pystr) : bool :=
  match v with
  | Some (_ :: _) => true
  | _ => false
  end.

(** [sorted(list(names - {x}))] and [sorted(list(names))] for the set [names]
    of the values of a column: the order in which a set is listed does not
    show after sorting, the set is kept as the list of its distinct members. *)
Definition set_of (l : list pystr) : list pystr := unique l.
Definition set_minus (names : list pystr) (x : pystr) : list pystr :=
  List.filter (fun y => negb (str_eqb y x)) names.
Definition set_update (s : list pystr) (l : list pystr) : list pystr :=
  unique (s ++ l).

(** [LIST_DELIMITER.join(map(str, l)) if l else None] *)
Definition join_if (sep : pystr) (l : list pystr) : option pystr :=
  match l with
  | [] => None
  | _ => Some (join sep l)
  end.
Definition join_agg (agg : option (list pystr)) : option pystr :=
  match agg with
  | Some l => join_if LIST_DELIMITER l
  | None => None
  end.

#[global] Instance date_eq_dec : EqDecision date.
Proof. solve_decision. Defined.

Definition date_le (a b : date) : Prop := date_leb a b = true.
#[global] Instance date_le_dec (a b : date) : Decision (date_le a b) :=
  bool_eq_dec (date_leb a b) true.

(** [s.zfill(width)] on digits. *)
Definition zfill (width : nat) (s : pystr) : pystr :=
  repeat 48%N (width - length s) ++ s.

(** [dt.strftime("%Y-%m-%d")] *)
Definition strftime_Ymd (dt : date) : pystr :=
  zfill 4 (str_of_int (year dt)) ++ lit "-" ++ zfill 2 (str_of_int (month dt))
  ++ lit "-" ++ zfill 2 (str_of_int (day dt)).

(** [series.astype(str)] on a column of text read from the CSV: a missing
    cell is the float NaN. *)
Definition astype_str (cell : option pystr) : pystr := default (lit "nan") cell.

Section Aggregation.
Variable U : unicode_db.

(** [aggregate_sanctions_data(group)] *)
Definition aggregate_sanctions_data (group : list Row) : result AggRow :=
  let primary_row :=
    firstn 1 (List.filter (fun r => cell_eqb (Alias_Type (cols r)) (lit "Primary name")) group) in
  let primary_row :=
    if Nat.eqb (length primary_row) 0
    then firstn 1 (List.filter
           (fun r => cell_eqb (Alias_Type (cols r)) (lit "Primary name variation")) group)
    else primary_row in
  primary_row ←
    (if Nat.eqb (length primary_row) 0
     then (r ← iloc0 group; Ok [r])
     else Ok primary_row);
  primary_name ← iloc0 (map Constructed_Name primary_row);
  primary_name_nl ← iloc0 (map Name_Non_Latin_Raw primary_row);
  group_type ← iloc0 (map (fun r => Group_Type (cols r)) primary_row);
  regime ← iloc0 (map (fun r => Regime (cols r)) primary_row);
  let all_constructed_names := set_of (dropna (map Constructed_Name group)) in
  let aliases :=
    if truthy primary_name
    then sorted (set_minus all_constructed_names (default [] primary_name))
    else sorted all_constructed_names in
  let all_nl_names := set_of (dropna (map Name_Non_Latin_Raw group)) in
  let aliases_nl :=
    match primary_name_nl with
    | Some nl => sorted (set_minus all_nl_names nl)
    | None => sorted all_nl_names
    end in
  let dob_raw_agg := get_unique_sorted_list U (map DOB_raw group) in
  let unique_parsed_dobs := unique (dropna (map DOB_parsed group)) in
  let dob_parsed_agg_list :=
    if (0 <? length unique_parsed_dobs)%nat
    then Some (merge_sort date_le unique_parsed_dobs) else None in
  let dob_year_agg := get_unique_sorted_list U (map DOB_year group) in
  let dob_precision_agg := get_unique_sorted_list U (map DOB_Precision group) in
  let countries_birth :=
    get_unique_sorted_list U (map (fun r => Country_of_Birth (cols r)) group) in
  let nationalities :=
    get_unique_sorted_list U (map (fun r => Nationality (cols r)) group) in
  let countries_addr :=
    get_unique_sorted_list U (map (fun r => Country (cols r)) group) in
  let all_countries_set : list pystr := [] in
  let all_countries_set :=
    match countries_birth with
    | Some l => set_update all_countries_set l
    | None => all_countries_set
    end in
  let all_countries_set :=
    match nationalities with
    | Some l => set_update all_countries_set l
    | None => all_countries_set
    end in
  let all_countries_set :=
    match countries_addr with
    | Some l => set_update all_countries_set l
    | None => all_countries_set
    end in
  let all_associated_countries :=
    match all_countries_set with
    | [] => None
    | _ => Some (sorted all_countries_set)
    end in
  let positions := get_unique_sorted_list U (map (fun r => Position (cols r)) group) in
  let passport_nums :=
    get_unique_sorted_list U (map (fun r => Passport_Number (cols r)) group) in
  let nat_ids :=
    get_unique_sorted_list U
      (map (fun r => National_Identification_Number (cols r)) group) in
  let addr_cols : list (RawRow -> option pystr) :=
    [Address_1; Address_2; Address_3; Address_4; Address_5; Address_6; Post_Zip_Code] in
  let address_components :=
    flat_map (fun col => unique (map (fun r => astype_str (col (cols r))) group))
             addr_cols in
  let address_components :=
    List.filter (fun addr => negb (str_eqb (lower U (strip addr)) (lit "nan")))
                address_components in
  let full_address_agg := join_if (lit ", ") address_components in
  let dob_parsed_str_agg :=
    match dob_parsed_agg_list with
    | Some l => join_if LIST_DELIMITER (map strftime_Ymd l)
    | None => None
    end in
  listed_on ← iloc0 (map (fun r => Listed_On (cols r)) primary_row);
  date_designated ←
    iloc0 (map (fun r => UK_Sanctions_List_Date_Designated (cols r)) primary_row);
  last_updated ← iloc0 (map (fun r => Last_Updated (cols r)) primary_row);
  Ok {| agg_Group_ID := None;
        Primary_Name := primary_name;
        Aliases := join_if LIST_DELIMITER aliases;
        Primary_Name_Non_Latin := primary_name_nl;
        Aliases_Non_Latin := join_if LIST_DELIMITER aliases_nl;
        agg_Group_Type := group_type;
        agg_Regime := regime;
        DOB_Raw_Agg := join_agg dob_raw_agg;
        DOB_Parsed_Agg := dob_parsed_str_agg;
        DOB_Year_Agg := join_agg dob_year_agg;
        DOB_Precision_Agg := join_agg dob_precision_agg;
        Countries_of_Birth := join_agg countries_birth;
        Nationalities := join_agg nationalities;
        Countries_Address := join_agg countries_addr;
        All_Associated_Countries := join_agg all_associated_countries;
        Positions := join_agg positions;
        Passport_Numbers_Agg := join_agg passport_nums;
        National_IDs_Agg := join_agg nat_ids;
        Full_Address_Agg := full_address_agg;
        agg_Listed_On := MText <$> listed_on;
        agg_UK_Sanctions_List_Date_Designated := MText <$> date_designated;
        agg_Last_Updated := MText <$> last_updated |}.

End Aggregation.

(** ** Post-aggregation cleaning and checks *)

(** [df[col] = f(df[col])] for a pass that works cell by cell on every column
    of dtype object or string: all columns of [final_data] hold text, the
    metadata dates until they are converted. *)
Definition map_meta_text (f : option pystr -> option pystr)
  (cell : option meta_cell) : option meta_cell :=
  match cell with
  | Some (MText s) => MText <$> f (Some s)
  | Some (MDate d) => Some (MDate d)
  | None => MText <$> f None
  end.

Definition map_text_columns (f : option pystr -> option pystr) (r : AggRow) : AggRow :=
  {| agg_Group_ID := agg_Group_ID r;
     Primary_Name := f (Primary_Name r);
     Aliases := f (Aliases r);
     Primary_Name_Non_Latin := f (Primary_Name_Non_Latin r);
     Aliases_Non_Latin := f (Aliases_Non_Latin r);
     agg_Group_Type := f (agg_Group_Type r);
     agg_Regime := f (agg_Regime r);
     DOB_Raw_Agg := f (DOB_Raw_Agg r);
     DOB_Parsed_Agg := f (DOB_Parsed_Agg r);
     DOB_Year_Agg := f (DOB_Year_Agg r);
     DOB_Precision_Agg := f (DOB_Precision_Agg r);
     Countries_of_Birth := f (Countries_of_Birth r);
     Nationalities := f (Nationalities r);
     Countries_Address := f (Countries_Address r);
     All_Associated_Countries := f (All_Associated_Countries r);
     Positions := f (Positions r);
     Passport_Numbers_Agg := f (Passport_Numbers_Agg r);
     National_IDs_Agg := f (National_IDs_Agg r);
     Full_Address_Agg := f (Full_Address_Agg r);
     agg_Listed_On := map_meta_text f (agg_Listed_On r);
     agg_UK_Sanctions_List_Date_Designated :=
       map_meta_text f (agg_UK_Sanctions_List_Date_Designated r);
     agg_Last_Updated := map_meta_text f (agg_Last_Updated r) |}.

(** One cell of [remove_lrm]. *)
Definition remove_lrm_cell (cell : option pystr) : option pystr :=
  match cell with
  | None => None
  | Some s =>
    let s' := List.filter (fun c => negb (c =? 8206)%N) s in
    if str_in s' [lit "nan"; lit "None"; lit "<NA>"; []] then None else Some s'
  end.

Definition remove_lrm (df : list AggRow) : list AggRow :=
  map (map_text_columns remove_lrm_cell) df.

(** [re.sub(r"\s{2,}", " ", s)]: [pending] is the first character of the
    run of white space being read and whether the run has a second one. *)
Definition flush_run (pending : option (char * bool)) : pystr :=
  match pending with
  | None => []
  | Some (c, many) => if many then [32%N] else [c]
  end.

Fixpoint collapse_spaces_from (pending : option (char * bool)) (s : pystr) : pystr :=
  match s with
  | [] => flush_run pending
  | c :: s' =>
    if isspace c then
      collapse_spaces_from
        (match pending with
         | None => Some (c, false)
         | Some (c0, _) => Some (c0, true)
         end) s'
    else flush_run pending ++ c :: collapse_spaces_from None s'
  end.

Definition collapse_spaces (s : pystr) : pystr := collapse_spaces_from None s.

(** One cell of [clean_all_whitespace]. *)
Definition clean_whitespace_cell (cell : option pystr) : option pystr :=
  match cell with
  | None => None
  | Some s =>
    let cleaned := collapse_spaces (strip s) in
    if Nat.eqb (length cleaned) 0 then None else Some cleaned
  end.

Definition clean_all_whitespace (df : list AggRow) : list AggRow :=
  map (map_text_columns clean_whitespace_cell) df.

(** [s.split(sep)] for a non-empty [sep]: [cur] is the piece being read,
    reversed, [skip] the characters of a separator still to pass. *)
Fixpoint split_from (sep : pystr) (cur : pystr) (skip : nat) (s : pystr) : list pystr :=
  match s with
  | [] => [rev cur]
  | c :: s' =>
    match skip with
    | S k => split_from sep cur k s'
    | O =>
      if startswith sep s
      then rev cur :: split_from sep [] (length sep - 1) s'
      else split_from sep (c :: cur) 0 s'
    end
  end.

Definition split (sep s : pystr) : list pystr := split_from sep [] 0 s.

Definition country_replacement_map : list (pystr * pystr) :=
  [ (lit "Russian Federation", lit "Russia");
    (lit "Russian", lit "Russia");
    (lit "RUSSIA", lit "Russia");
    (lit "Belarusian SSR, (now Belarus)", lit "Belarus");
    (lit "Uzbekhistan", lit "Uzbekistan");
    (lit "Ukrainian SSR now Ukraine", lit "Ukrainian SSR (now Ukraine)");
    (lit "Ukrainian SSR (Ukraine)", lit "Ukrainian SSR (now Ukraine)");
    (lit "Ukrainian SSR", lit "Ukrainian SSR (now Ukraine)");
    (lit "Kazakh Soviet Socialist Republic (now Kazakhstan)",
     lit "Kazakh SSR (now Kazakhstan)");
    (lit "Kazakh Soviet Socialist Republic", lit "Kazakh SSR (now Kazakhstan)");
    (lit "Kazakh SSR", lit "Kazakh SSR (now Kazakhstan)");
    (lit "Bosnia-Herzegovina", lit "Bosnia and Herzegovina");
    (lit "Uzbek SSR", lit "Uzbekistan SSR (now Uzbekistan)");
    (lit "USSR", lit "Russia (USSR)");
    (lit "United Republic of Tanzania", lit "Tanzania");
    (lit "German", lit "Germany");
    (lit "Democratic People's Republic of Korea", lit "North Korea");
    (lit "DPRK", lit "North Korea");
    (lit "Türkiye", lit "Turkey");
    (lit "United States of America", lit "United States");
    (lit "Guinea-Bissau", lit "Guinea Bissau") ].

(** [d.get(key, default)] *)
Fixpoint dict_get (d : list (pystr * pystr)) (key default : pystr) : pystr :=
  match d with
  | [] => default
  | (k, v) :: d' => if str_eqb k key then v else dict_get d' key default
  end.

(** [s.add(x)] on a set kept as the list of its members. *)
Definition set_add (s : list pystr) (x : pystr) : list pystr :=
  if str_in x s then s else s ++ [x].

(** [standardize_cell(cell_value)] *)
Definition standardize_cell (cell_value : option pystr) : option pystr :=
  match cell_value with
  | None => None
  | Some text =>
    let countries := map strip (split LIST_DELIMITER text) in
    let standardized_countries :=
      fold_left
        (fun acc country =>
           let standardized_name :=
             dict_get country_replacement_map country country in
           if negb (Nat.eqb (length standardized_name) 0)
           then set_add acc standardized_name
           else acc)
        countries [] in
    match standardized_countries with
    | [] => None
    | _ => Some (join LIST_DELIMITER (sorted standardized_countries))
    end
  end.

(** [standardize_countries_in_agg_col(df, agg_country_cols)] for the four
    columns that [main] passes. *)
Definition standardize_countries_in_agg_col (df : list AggRow) : list AggRow :=
  map (fun r =>
    {| agg_Group_ID := agg_Group_ID r;
       Primary_Name := Primary_Name r;
       Aliases := Aliases r;
       Primary_Name_Non_Latin := Primary_Name_Non_Latin r;
       Aliases_Non_Latin := Aliases_Non_Latin r;
       agg_Group_Type := agg_Group_Type r;
       agg_Regime := agg_Regime r;
       DOB_Raw_Agg := DOB_Raw_Agg r;
       DOB_Parsed_Agg := DOB_Parsed_Agg r;
       DOB_Year_Agg := DOB_Year_Agg r;
       DOB_Precision_Agg := DOB_Precision_Agg r;
       Countries_of_Birth := standardize_cell (Countries_of_Birth r);
       Nationalities := standardize_cell (Nationalities r);
       Countries_Address := standardize_cell (Countries_Address r);
       All_Associated_Countries := standardize_cell (All_Associated_Countries r);
       Positions := Positions r;
       Passport_Numbers_Agg := Passport_Numbers_Agg r;
       National_IDs_Agg := National_IDs_Agg r;
       Full_Address_Agg := Full_Address_Agg r;
       agg_Listed_On := agg_Listed_On r;
       agg_UK_Sanctions_List_Date_Designated :=
         agg_UK_Sanctions_List_Date_Designated r;
       agg_Last_Updated := agg_Last_Updated r |}) df.

Section Pipeline.
Variable U : unicode_db.

(** One cell of [convert_metadata_dates]:
    [pd.to_datetime(df[col], format="%d/%m/%Y", errors="coerce")]. *)
Definition convert_metadata_cell (cell : option meta_cell) : option meta_cell :=
  match cell with
  | Some (MText s) =>
    match to_datetime_dmY U s with
    | Ok (Some t) => Some (MDate t)
    | _ => None
    end
  | Some (MDate t) => Some (MDate t)
  | None => None
  end.

Definition convert_metadata_dates (df : list AggRow) : list AggRow :=
  map (fun r =>
    {| agg_Group_ID := agg_Group_ID r;
       Primary_Name := Primary_Name r;
       Aliases := Aliases r;
       Primary_Name_Non_Latin := Primary_Name_Non_Latin r;
       Aliases_Non_Latin := Aliases_Non_Latin r;
       agg_Group_Type := agg_Group_Type r;
       agg_Regime := agg_Regime r;
       DOB_Raw_Agg := DOB_Raw_Agg r;
       DOB_Parsed_Agg := DOB_Parsed_Agg r;
       DOB_Year_Agg := DOB_Year_Agg r;
       DOB_Precision_Agg := DOB_Precision_Agg r;
       Countries_of_Birth := Countries_of_Birth r;
       Nationalities := Nationalities r;
       Countries_Address := Countries_Address r;
       All_Associated_Countries := All_Associated_Countries r;
       Positions := Positions r;
       Passport_Numbers_Agg := Passport_Numbers_Agg r;
       National_IDs_Agg := National_IDs_Agg r;
       Full_Address_Agg := Full_Address_Agg r;
       agg_Listed_On := convert_metadata_cell (agg_Listed_On r);
       agg_UK_Sanctions_List_Date_Designated :=
         convert_metadata_cell (agg_UK_Sanctions_List_Date_Designated r);
       agg_Last_Updated := convert_metadata_cell (agg_Last_Updated r) |}) df.

(** [series.duplicated().sum() > 0]; two missing keys count as equal. *)
Fixpoint has_duplicates (keys : list (option Z)) : bool :=
  match keys with
  | [] => false
  | k :: keys' => bool_decide (k ∈ keys') || has_duplicates keys'
  end.

(** The aggregated frame: its rows, and whether the dtype of the column
    [Group ID] is an integer dtype. *)
Record Frame := {
  Group_ID_is_integer : bool;
  rows : list AggRow
}.

(** [run_final_checks(df, verbose)]: the value returned. The WARN checks and
    the printed report leave [ready_for_export] as it is. *)
Definition run_final_checks (df : Frame) (verbose : bool) : bool :=
  if negb verbose then true
  else
    let ready_for_export := true in
    let critical_nulls :=
      existsb (fun r => isna (agg_Group_ID r)) (rows df)
      || existsb (fun r => isna (Primary_Name r)) (rows df)
      || existsb (fun r => isna (agg_Group_Type r)) (rows df)
      || existsb (fun r => isna (agg_Regime r)) (rows df) in
    let ready_for_export := if critical_nulls then false else ready_for_export in
    let ready_for_export :=
      if has_duplicates (map agg_Group_ID (rows df)) then false
      else ready_for_export in
    let ready_for_export :=
      if negb (Group_ID_is_integer df) then false else ready_for_export in
    let expected_group_types := [lit "Individual"; lit "Entity"; lit "Ship"] in
    let actual_group_types := unique (dropna (map agg_Group_Type (rows df))) in
    let unexpected_types :=
      List.filter (fun t => negb (str_in t expected_group_types)) actual_group_types in
    let ready_for_export :=
      if negb (Nat.eqb (length unexpected_types) 0) then false
      else ready_for_export in
    ready_for_export.

(** [df.groupby("Group ID")]: the keys in ascending order, rows without a key
    left out, each group in the order of the frame. *)
Definition groupby_Group_ID (df : list Row) : list (Z * list Row) :=
  let keys := merge_sort Z.le (unique (dropna (map (fun r => Group_ID (cols r)) df))) in
  map (fun k =>
         (k, List.filter (fun r => bool_decide (Group_ID (cols r) = Some k)) df))
      keys.

Definition set_Group_ID (key : Z) (r : AggRow) : AggRow :=
  {| agg_Group_ID := Some key;
     Primary_Name := Primary_Name r;
     Aliases := Aliases r;
     Primary_Name_Non_Latin := Primary_Name_Non_Latin r;
     Aliases_Non_Latin := Aliases_Non_Latin r;
     agg_Group_Type := agg_Group_Type r;
     agg_Regime := agg_Regime r;
     DOB_Raw_Agg := DOB_Raw_Agg r;
     DOB_Parsed_Agg := DOB_Parsed_Agg r;
     DOB_Year_Agg := DOB_Year_Agg r;
     DOB_Precision_Agg := DOB_Precision_Agg r;
     Countries_of_Birth := Countries_of_Birth r;
     Nationalities := Nationalities r;
     Countries_Address := Countries_Address r;
     All_Associated_Countries := All_Associated_Countries r;
     Positions := Positions r;
     Passport_Numbers_Agg := Passport_Numbers_Agg r;
     National_IDs_Agg := National_IDs_Agg r;
     Full_Address_Agg := Full_Address_Agg r;
     agg_Listed_On := agg_Listed_On r;
     agg_UK_Sanctions_List_Date_Designated :=
       agg_UK_Sanctions_List_Date_Designated r;
     agg_Last_Updated := agg_Last_Updated r |}.

(** [structured_sanctions.drop(columns=["DOB_Raw_Agg"])]: no later step reads
    the column; its cells are cleared. *)
Definition drop_DOB_Raw_Agg (r : AggRow) : AggRow :=
  {| agg_Group_ID := agg_Group_ID r;
     Primary_Name := Primary_Name r;
     Aliases := Aliases r;
     Primary_Name_Non_Latin := Primary_Name_Non_Latin r;
     Aliases_Non_Latin := Aliases_Non_Latin r;
     agg_Group_Type := agg_Group_Type r;
     agg_Regime := agg_Regime r;
     DOB_Raw_Agg := None;
     DOB_Parsed_Agg := DOB_Parsed_Agg r;
     DOB_Year_Agg := DOB_Year_Agg r;
     DOB_Precision_Agg := DOB_Precision_Agg r;
     Countries_of_Birth := Countries_of_Birth r;
     Nationalities := Nationalities r;
     Countries_Address := Countries_Address r;
     All_Associated_Countries := All_Associated_Countries r;
     Positions := Positions r;
     Passport_Numbers_Agg := Passport_Numbers_Agg r;
     National_IDs_Agg := National_IDs_Agg r;
     Full_Address_Agg := Full_Address_Agg r;
     agg_Listed_On := agg_Listed_On r;
     agg_UK_Sanctions_List_Date_Designated :=
       agg_UK_Sanctions_List_Date_Designated r;
     agg_Last_Updated := agg_Last_Updated r |}.

(** [grouped.progress_apply(aggregate_sanctions_data)] followed by
    [reset_index()]. *)
Definition aggregate_groups (grouped : list (Z * list Row)) : result (list AggRow) :=
  mapM (fun kg => r ← aggregate_sanctions_data U (snd kg); Ok (set_Group_ID (fst kg) r))
       grouped.

(** [<=] on the keys of [sort_values]: missing keys come last. *)
Definition key_leb (a b : option Z) : bool :=
  match a, b with
  | Some x, Some y => (x <=? y)%Z
  | _, None => true
  | None, Some _ => false
  end.
Definition row_le (a b : AggRow) : Prop :=
  key_leb (agg_Group_ID a) (agg_Group_ID b) = true.
#[global] Instance row_le_dec (a b : AggRow) : Decision (row_le a b) :=
  bool_eq_dec _ true.

(** [df.sort_values(by="Group ID").reset_index(drop=True)] *)
Definition sort_values_Group_ID (df : list AggRow) : list AggRow :=
  merge_sort row_le df.

(** Steps 2 to 4 of [main] on one row. *)
Definition prepare_row (current_year : Z) (raw : RawRow) : result Row :=
  let dob_raw := DOB raw in
  parsed ← parse_dob_comprehensive U current_year dob_raw;
  let '(dob_parsed, dob_precision) := parsed in
  let cleaned :=
    {| Group_ID := Group_ID raw;
       Alias_Type := Alias_Type raw;
       Group_Type := Group_Type raw;
       Regime := Regime raw;
       Title := Title raw;
       Name_1 := Name_1 raw;
       Name_2 := Name_2 raw;
       Name_3 := Name_3 raw;
       Name_4 := Name_4 raw;
       Name_5 := Name_5 raw;
       Name_6 := Name_6 raw;
       Name_Non_Latin_Script := Name_Non_Latin_Script raw;
       DOB := None;
       Country_of_Birth := clean_country_string U (Country_of_Birth raw);
       Nationality := clean_country_string U (Nationality raw);
       Country := clean_country_string U (Country raw);
       Position := Position raw;
       Passport_Number := Passport_Number raw;
       National_Identification_Number := National_Identification_Number raw;
       Address_1 := Address_1 raw;
       Address_2 := Address_2 raw;
       Address_3 := Address_3 raw;
       Address_4 := Address_4 raw;
       Address_5 := Address_5 raw;
       Address_6 := Address_6 raw;
       Post_Zip_Code := Post_Zip_Code raw;
       Listed_On := Listed_On raw;
       UK_Sanctions_List_Date_Designated := UK_Sanctions_List_Date_Designated raw;
       Last_Updated := Last_Updated raw |} in
  Ok {| cols := cleaned;
        DOB_raw := dob_raw;
        DOB_parsed := dob_parsed;
        DOB_Precision := Some dob_precision;
        DOB_year := year <$> dob_parsed;
        Constructed_Name := construct_full_name cleaned;
        Name_Non_Latin_Raw := Name_Non_Latin_Script cleaned |}.

(** What [main] hands back: the value of [is_ready] and the frame that is
    written to the output file. [Raise] stands for the fatal exit that the
    handlers of [main] turn an exception into. *)
Record Output := {
  is_ready : bool;
  structured_sanctions : list AggRow
}.

(** [main(input_path, output_path, verbose)] on the frame read from the
    input file. *)
Definition main (verbose : bool) (current_year : Z) (uk_sanctions_raw : list RawRow)
  : result Output :=
  prepared ← mapM (prepare_row current_year) uk_sanctions_raw;
  let grouped := groupby_Group_ID prepared in
  structured ← aggregate_groups grouped;
  let structured := map drop_DOB_Raw_Agg structured in
  let structured := remove_lrm structured in
  let structured := convert_metadata_dates structured in
  let structured := clean_all_whitespace structured in
  let structured := standardize_countries_in_agg_col structured in
  let ready :=
    run_final_checks
      {| Group_ID_is_integer :=
           forallb (fun r => notna (Group_ID r)) uk_sanctions_raw;
         rows := structured |}
      verbose in
  let structured := sort_values_Group_ID structured in
  Ok {| is_ready := ready; structured_sanctions := structured |}.

End Pipeline.

(** * Properties *)

(** ** Order on text *)

Lemma str_leb_refl (a : pystr) : str_leb a a = true.
Proof.
  induction a as [|x a IH]; simpl; auto.
  rewrite N.ltb_irrefl, N.eqb_refl. exact IH.
Qed.

Lemma str_leb_total (a b : pystr) : str_leb a b = true \/ str_leb b a = true.
Proof.
  revert b. induction a as [|x a IH]; intros [|y b]; simpl; auto.
  destruct (N.ltb_spec x y), (N.ltb_spec y x), (N.eqb_spec x y), (N.eqb_spec y x);
    auto; try lia. 
Qed.

Lemma str_leb_antisym (a b : pystr) :
  str_leb a b = true -> str_leb b a = true -> a = b.
Proof.
  revert b. induction a as [|x a IH]; intros [|y b]; simpl; auto; try discriminate.
  destruct (N.ltb_spec x y), (N.ltb_spec y x), (N.eqb_spec x y), (N.eqb_spec y x);
    intros; try discriminate; try lia.
  f_equal; auto.
Qed.

Lemma str_leb_trans (a b c : pystr) :
  str_leb a b = true -> str_leb b c = true -> str_leb a c = true.
Proof.
  revert b c. induction a as [|x a IH]; intros [|y b] [|z c]; simpl; auto; try discriminate.
  destruct (N.ltb_spec x y), (N.ltb_spec y z), (N.ltb_spec x z),
    (N.eqb_spec x y), (N.eqb_spec y z), (N.eqb_spec x z);
    intros; try discriminate; try lia; eauto.
Qed.

#[global] Instance str_le_total : Total str_le.
Proof. intros a b. apply str_leb_total. Qed.
#[global] Instance str_le_trans : Transitive str_le.
Proof. intros a b c. apply str_leb_trans. Qed.
#[global] Instance str_le_antisym : AntiSymm (=) str_le.
Proof. intros a b. apply str_leb_antisym. Qed.

Lemma str_eqb_eq (a b : pystr) : str_eqb a b = true <-> a = b.
Proof.
  revert b. induction a as [|x a IH]; intros [|y b]; simpl; split; intros H;
    try discriminate; auto.
  - apply andb_true_iff in H as [H1 H2]. apply N.eqb_eq in H1. apply IH in H2.
    congruence.
  - injection H as -> ->. rewrite N.eqb_refl. now apply IH.
Qed.

Lemma str_in_In (x : pystr) (l : list pystr) : str_in x l = true <-> In x l.
Proof.
  unfold str_in. rewrite existsb_exists. split.
  - intros (y & Hy & E). apply str_eqb_eq in E. now subst.
  - intros H. exists x. split; auto. now apply str_eqb_eq.
Qed.

(** ** Sorting *)

Lemma sorted_Sorted (l : list pystr) : Sorted str_le (sorted l).
Proof. apply Sorted_merge_sort. typeclasses eauto. Qed.

Lemma sorted_Permutation (l : list pystr) : Permutation (sorted l) l.
Proof. apply merge_sort_Permutation. Qed.


Lemma sorted_id (l : list pystr) : Sorted str_le l -> sorted l = l.
Proof.
  intros H. apply (Sorted_unique str_le); auto using sorted_Sorted, sorted_Permutation.
Qed.

(** ** [unique] and [dropna] *)

Lemma filter_all {A} (p : A -> bool) (l : list A) :
  (forall x, In x l -> p x = true) -> List.filter p l = l.
Proof.
  induction l as [|x l IH]; simpl; intros H; auto.
  rewrite H by auto. f_equal. auto.
Qed.

Lemma In_unique {A} `{EqDecision A} (l : list A) (y : A) :
  In y (unique l) <-> In y l.
Proof.
  induction l as [|x l IH]; simpl; [tauto|].
  rewrite filter_In, IH, negb_true_iff, bool_decide_eq_false.
  destruct (decide (y = x)); intuition congruence.
Qed.

Lemma NoDup_unique {A} `{EqDecision A} (l : list A) : List.NoDup (unique l).
Proof.
  induction l as [|x l IH]; simpl; constructor.
  - rewrite filter_In, negb_true_iff, bool_decide_eq_false. tauto.
  - now apply List.NoDup_filter.
Qed.


Lemma In_dropna {A} (series : list (option A)) (x : A) :
  In x (dropna series) <-> In (Some x) series.
Proof.
  unfold dropna. rewrite <- !list_elem_of_In, list_elem_of_omap. split.
  - intros (o & Ho & E). simpl in E. now subst.
  - intros H. now exists (Some x).
Qed.


(** ** FieldAggregator: [get_unique_sorted_list] *)

Section FieldAggregator.
Variable U : unicode_db.
Context {A : Type} `{Dtype A}.






End FieldAggregator.




(** ** Regular expressions of fixed shape *)

Local Open Scope N_scope.

Local Arguments N.eqb : simpl never.
Local Arguments N.leb : simpl never.
Local Arguments N.ltb : simpl never.
Local Arguments isdecimal : simpl never.
Local Arguments isword : simpl never.
Local Arguments isspace : simpl never.
Local Arguments Nat.sub : simpl nomatch.

Definition init (s : pystr) : mstate := {| pos := 0; rest := s; groups := [] |}.

Ltac eval_lits :=
  repeat match goal with
  | |- context [lit ?s] =>
    let l := eval vm_compute in (lit s) in change (lit s) with l
  | H : context [lit ?s] |- _ =>
    let l := eval vm_compute in (lit s) in change (lit s) with l in H
  end.

(** Case analysis on the input, one character at a time, along a pattern
    without repetition. *)
Ltac regex_case H :=
  match type of H with
  | In _ [] => destruct H
  | _ \/ _ => destruct H as [H|H]
  | False => destruct H
  | _ = _ => fail 1
  | context [match ?s with [] => _ | _ :: _ => _ end] => is_var s; destruct s
  | context [if ?b then _ else _] => destruct b eqn:?
  end; cbn in H.

Ltac char_facts :=
  repeat match goal with
  | H : (_ =? _) = true |- _ => apply N.eqb_eq in H; subst
  | H : true = true |- _ => clear H
  | H : _ && _ = true |- _ => apply andb_true_iff in H as [? ?]
  end.

Lemma head_In {A} (l : list A) (x : A) : head l = Some x -> In x l.
Proof. destruct l; simpl; intros [=]; subst; auto. Qed.

Section FixedPatterns.
Variable U : unicode_db.

Lemma isdecimal_not_slash : isdecimal U 47 = false.
Proof. reflexivity. Qed.

Lemma run_pattern_00_mm (s : pystr) (m : mstate) :
  In m (run (pattern_00_mm U) (init s)) ->
  exists mm yyyy,
    group m 1 = Some mm /\ group m 2 = Some yyyy
    /\ mm <> [] /\ forallb (isdecimal U) mm = true
    /\ yyyy <> [] /\ forallb (isdecimal U) yyyy = true.
Proof.
  unfold pattern_00_mm, init, Lit, Between, Digit. eval_lits. cbn. intros H.
  repeat regex_case H; cbv [advance set_group pos rest groups firstn Nat.sub] in H;
    char_facts; subst;
    try (rewrite isdecimal_not_slash in *; discriminate);
    cbn; eexists _, _; repeat split; try discriminate; cbn;
    repeat match goal with H : isdecimal U _ = true |- _ => rewrite H; clear H end;
    reflexivity.
Qed.

Lemma run_pattern_00_00 (s : pystr) (m : mstate) :
  In m (run (pattern_00_00 U) (init s)) ->
  exists yyyy,
    group m 1 = Some yyyy /\ yyyy <> [] /\ forallb (isdecimal U) yyyy = true.
Proof.
  unfold pattern_00_00, init, Lit, Digit. eval_lits. cbn. intros H.
  repeat regex_case H; cbv [advance set_group pos rest groups firstn Nat.sub] in H;
    char_facts; subst;
    cbn; eexists; repeat split; try discriminate; cbn;
    repeat match goal with H : isdecimal U _ = true |- _ => rewrite H; clear H end;
    reflexivity.
Qed.

Lemma int_digits (w : pystr) :
  w <> [] -> forallb (isdecimal U) w = true -> int U (Some w) = Ok (int_of_digits U w).
Proof.
  intros Hne Hd. unfold int. rewrite Hd. destruct w; [congruence|reflexivity].
Qed.

Lemma int_groups_00_mm (s : pystr) (m : mstate) :
  re_match (pattern_00_mm U) s = Some m ->
  exists mo y, int U (group m 1) = Ok mo /\ int U (group m 2) = Ok y.
Proof.
  intros H. apply head_In, run_pattern_00_mm in H
    as (mm & yyyy & -> & -> & ? & ? & ? & ?).
  rewrite !int_digits by auto. eauto.
Qed.

Lemma int_groups_00_00 (s : pystr) (m : mstate) :
  re_match (pattern_00_00 U) s = Some m ->
  exists y, int U (group m 1) = Ok y.
Proof.
  intros H. apply head_In, run_pattern_00_00 in H as (yyyy & -> & ? & ?).
  rewrite int_digits by auto. eauto.
Qed.

End FixedPatterns.

(** ** DateOfBirthParser: [parse_dob_comprehensive] *)

Section DateOfBirthParser.
Variable U : unicode_db.
Variable current_year : Z.

(** The three parsing rules, each as the date it yields on a stripped
    string, if any. *)
Definition rule_full_date (s : pystr) : option date :=
  if startswith (lit "00/") s then None
  else
    match to_datetime_dmY U s with
    | Ok (Some t) => if in_year_range current_year (year t) then Some t else None
    | _ => None
    end.

Definition rule_month_year (s : pystr) : option date :=
  match re_match (pattern_00_mm U) s with
  | Some m =>
    match int U (group m 1), int U (group m 2) with
    | Ok mo, Ok y =>
      if (1 <=? mo)%Z && (mo <=? 12)%Z && in_year_range current_year y
      then match Timestamp y mo 1 with Ok t => Some t | Raise _ => None end
      else None
    | _, _ => None
    end
  | None => None
  end.

Definition rule_year (s : pystr) : option date :=
  match re_match (pattern_00_00 U) s with
  | Some m =>
    match int U (group m 1) with
    | Ok y =>
      if in_year_range current_year y
      then match Timestamp y 1 1 with Ok t => Some t | Raise _ => None end
      else None
    | _ => None
    end
  | None => None
  end.

(** The rules tried in order, the first success wins. *)
Definition first_rule (s : pystr) : option date * pystr :=
  match rule_full_date s with
  | Some t => (Some t, lit "Full Date")
  | None =>
    match rule_month_year s with
    | Some t => (Some t, lit "Month/Year Only")
    | None =>
      match rule_year s with
      | Some t => (Some t, lit "Year Only")
      | None => (None, lit "Unknown/Failed")
      end
    end
  end.

Lemma Timestamp_raises (y m d : Z) (e : exn) :
  Timestamp y m d = Raise e -> e = ValueError.
Proof.
  unfold Timestamp. repeat case_match; congruence.
Qed.

Lemma int_raises (g : option pystr) (e : exn) :
  int U g = Raise e -> e = ValueError \/ e = TypeError.
Proof.
  unfold int. repeat case_match; intros [=]; auto.
Qed.

Lemma to_datetime_raises (s : pystr) (e : exn) :
  to_datetime_dmY U s = Raise e -> e = ValueError \/ e = TypeError.
Proof.
  unfold to_datetime_dmY.
  destruct (_ || _); [discriminate|].
  destruct (re_match _ _) as [found|]; [|intros [=]; auto].
  destruct (negb _); [intros [=]; auto|].
  destruct (int U (group found 1)) as [d|e1] eqn:E1; cbn;
    [|intros [= <-]; eapply int_raises; eauto].
  destruct (int U (group found 2)) as [m|e2] eqn:E2; cbn;
    [|intros [= <-]; eapply int_raises; eauto].
  destruct (int U (group found 3)) as [y|e3] eqn:E3; cbn;
    [|intros [= <-]; eapply int_raises; eauto].
  destruct (Timestamp y m d) as [t|e4] eqn:E4; cbn; [discriminate|].
  intros [= <-]. left. eapply Timestamp_raises; eauto.
Qed.

Lemma try_except_to_datetime {B} (s : pystr) (k : option date -> result B) (h : B) :
  try_except (temp_date ← to_datetime_dmY U s; k temp_date)
             [ValueError; TypeError] (Ok h)
  = match to_datetime_dmY U s with
    | Ok v => try_except (k v) [ValueError; TypeError] (Ok h)
    | Raise _ => Ok h
    end.
Proof.
  destruct (to_datetime_dmY U s) as [v|e] eqn:E; cbn; [reflexivity|].
  apply to_datetime_raises in E as [-> | ->]; reflexivity.
Qed.

Lemma try_except_Timestamp {B} (y m d : Z) (k : date -> B) (h : B) :
  try_except (t ← Timestamp y m d; Ok (k t)) [ValueError] (Ok h)
  = Ok (match Timestamp y m d with Ok t => k t | Raise _ => h end).
Proof.
  destruct (Timestamp y m d) as [t|e] eqn:E; cbn; [reflexivity|].
  apply Timestamp_raises in E as ->. reflexivity.
Qed.

Lemma parse_dob_rules (raw : pystr) :
  parse_dob_comprehensive U current_year (Some raw) =
  Ok (if str_eqb (lower U (strip raw)) (lit "nan") then (None, lit "Missing")
      else first_rule (strip raw)).
Proof.
  unfold parse_dob_comprehensive.
  destruct (str_eqb _ _); [reflexivity|].
  unfold first_rule, rule_full_date, rule_month_year, rule_year.
  set (s := strip raw).
  assert (Hfull :
    try_except
      (if negb (startswith (lit "00/") s)
       then temp_date ← to_datetime_dmY U s;
            match temp_date with
            | Some t =>
              if in_year_range current_year (year t)
              then Ok (Some t, lit "Full Date")
              else Ok (None, lit "Unknown/Failed")
            | None => Ok (None, lit "Unknown/Failed")
            end
       else Ok (None, lit "Unknown/Failed"))
      [ValueError; TypeError] (Ok (None, lit "Unknown/Failed"))
    = Ok (match (if startswith (lit "00/") s then None
                 else match to_datetime_dmY U s with
                      | Ok (Some t) =>
                        if in_year_range current_year (year t) then Some t else None
                      | _ => None
                      end) with
          | Some t => (Some t, lit "Full Date")
          | None => (None, lit "Unknown/Failed")
          end)).
  { destruct (startswith (lit "00/") s); cbn [negb]; [reflexivity|].
    rewrite try_except_to_datetime.
    destruct (to_datetime_dmY U s) as [[t|]|e]; try reflexivity.
    destruct (in_year_range current_year (year t)); reflexivity. }
  rewrite Hfull. clear Hfull. cbn [mbind result_bind].
  destruct (if startswith (lit "00/") s then None else _) as [t|]; [reflexivity|].
  cbn [isna bool_decide negb].
  change (negb (bool_decide (is_Some (@None date)))) with true. cbv iota.
  assert (Hyear :
    (st ← match re_match (pattern_00_00 U) s with
          | Some match_00_00 =>
            year ← int U (group match_00_00 1);
            if in_year_range current_year year
            then try_except (t ← Timestamp year 1 1; Ok (Some t, lit "Year Only"))
                            [ValueError] (Ok (None, lit "Unknown/Failed"))
            else Ok (None, lit "Unknown/Failed")
          | None => Ok (None, lit "Unknown/Failed")
          end;
     let '(parsed_date, precision) := st in
     let precision :=
       if isna parsed_date && str_eqb precision (lit "Unknown/Failed")
       then lit "Unknown/Failed" else precision in
     Ok (parsed_date, precision))
    = Ok (match match re_match (pattern_00_00 U) s with
                | Some m =>
                  match int U (group m 1) with
                  | Ok y =>
                    if in_year_range current_year y
                    then match Timestamp y 1 1 with Ok t => Some t | Raise _ => None end
                    else None
                  | Raise _ => None
                  end
                | None => None
                end with
          | Some t => (Some t, lit "Year Only")
          | None => (None, lit "Unknown/Failed")
          end)).
  { destruct (re_match (pattern_00_00 U) s) as [m|] eqn:Em; [|reflexivity].
    destruct (int_groups_00_00 U _ _ Em) as (y & ->). cbn [mbind result_bind].
    destruct (in_year_range current_year y); [|reflexivity].
    rewrite (try_except_Timestamp y 1 1
               (fun t => (Some t, lit "Year Only")) (None, lit "Unknown/Failed")).
    destruct (Timestamp y 1 1); reflexivity. }
  destruct (re_match (pattern_00_mm U) s) as [m|] eqn:Em.
  - destruct (int_groups_00_mm U _ _ Em) as (mo & y & -> & ->). cbn [mbind result_bind].
    destruct ((1 <=? mo)%Z && (mo <=? 12)%Z && in_year_range current_year y).
    + rewrite (try_except_Timestamp y mo 1
                 (fun t => (Some t, lit "Month/Year Only")) (None, lit "Unknown/Failed")).
      cbn [mbind result_bind].
      destruct (Timestamp y mo 1) as [t|e]; [reflexivity|].
      change (isna (@None date)) with true. cbv iota. exact Hyear.
    + cbn [mbind result_bind].
      change (isna (@None date)) with true. cbv iota. exact Hyear.
  - cbn [mbind result_bind].
    change (isna (@None date)) with true. cbv iota. exact Hyear.
Qed.
End DateOfBirthParser.

Section DateOfBirthRules.
Variable U : unicode_db.

Definition digits (n : nat) (w : pystr) : Prop :=
  length w = n /\ forallb (isdecimal U) w = true.

Ltac digit_list w H :=
  destruct H as [Hlen Hdig];
  repeat (destruct w as [|? w]; simpl in Hlen; try discriminate Hlen);
  cbn [forallb] in Hdig;
  repeat match type of Hdig with
         | _ && _ = true => let H1 := fresh "Hd" in apply andb_true_iff in Hdig as [H1 Hdig]
         end; clear Hlen Hdig.

Ltac run_digits :=
  repeat first
    [ progress cbn
    | rewrite isdecimal_not_slash
    | match goal with H : isdecimal U ?c = true |- context [isdecimal U ?c] =>
        rewrite H
      end
    | match goal with |- context [N.eqb ?a ?b] =>
        let v := eval vm_compute in (N.eqb a b) in
        first [constr_eq v true | constr_eq v false];
        change (N.eqb a b) with v
      end ].



Lemma match_00_00 (yyyy : pystr) :
  digits 4 yyyy ->
  exists m, re_match (pattern_00_00 U) (lit "00/00/" ++ yyyy) = Some m
            /\ group m 1 = Some yyyy.
Proof.
  intros Hy. digit_list yyyy Hy.
  unfold re_match, pattern_00_00, Lit, Digit. eval_lits. cbn.
  run_digits.
  eexists. split; reflexivity.
Qed.

End DateOfBirthRules.


Lemma drop_while_app_all {A} (p : A -> bool) (pre l : list A) :
  forallb p pre = true -> drop_while p (pre ++ l) = drop_while p l.
Proof.
  induction pre as [|x pre IH]; simpl; auto.
  intros H. apply andb_true_iff in H as [-> H]. auto.
Qed.

Lemma forallb_rev_true {A} (p : A -> bool) (l : list A) :
  forallb p l = true -> forallb p (rev l) = true.
Proof.
  rewrite !forallb_forall. intros H x Hx. apply H. now apply in_rev.
Qed.

Lemma strip_by_padded (p : char -> bool) (pre post : pystr) (a : char) (w : pystr) (z : char) :
  forallb p pre = true -> forallb p post = true -> p a = false -> p z = false ->
  strip_by p (pre ++ (a :: w ++ [z]) ++ post) = a :: w ++ [z].
Proof.
  intros Hpre Hpost Ha Hz. unfold strip_by, lstrip_by, rstrip_by.
  rewrite drop_while_app_all by auto. cbn [app drop_while]. rewrite Ha.
  change (a :: (w ++ [z]) ++ post) with ((a :: w ++ [z]) ++ post).
  rewrite rev_app_distr, drop_while_app_all by (now apply forallb_rev_true).
  change (a :: w ++ [z]) with ((a :: w) ++ [z]).
  rewrite rev_app_distr. cbn [rev app drop_while]. rewrite Hz.
  change (z :: rev w ++ [a]) with ([z] ++ rev (a :: w)).
  rewrite rev_app_distr, rev_involutive. reflexivity.
Qed.

Section DateOfBirthClaims.
Variable U : unicode_db.
Variable current_year : Z.

Lemma first_rule_cases (s : pystr) :
  (exists t, first_rule U current_year s = (Some t, lit "Full Date"))
  \/ (exists t, first_rule U current_year s = (Some t, lit "Month/Year Only"))
  \/ (exists t, first_rule U current_year s = (Some t, lit "Year Only"))
  \/ first_rule U current_year s = (None, lit "Unknown/Failed").
Proof.
  unfold first_rule.
  destruct (rule_full_date _ _ _); eauto.
  destruct (rule_month_year _ _ _); eauto.
  destruct (rule_year _ _ _); eauto 6.
Qed.

Lemma str_neq (a b : pystr) : str_eqb a b = false -> a <> b.
Proof. intros H E. apply str_eqb_eq in E. congruence. Qed.

Lemma precision_of_date (p : pystr) :
  In p [lit "Full Date"; lit "Month/Year Only"; lit "Year Only"] ->
  ~ In p [lit "Missing"; lit "Unknown/Failed"].
Proof.
  unfold In.
  intros [<-|[<-|[<-|[]]]] [H|[H|[]]]; revert H; apply str_neq; vm_compute; reflexivity.
Qed.

Lemma precision_labels (d : option date) (p : pystr) :
  (d <> None /\ In p [lit "Full Date"; lit "Month/Year Only"; lit "Year Only"])
  \/ (d = None /\ In p [lit "Missing"; lit "Unknown/Failed"]) ->
  In p [lit "Full Date"; lit "Month/Year Only"; lit "Year Only";
        lit "Missing"; lit "Unknown/Failed"]
  /\ (d <> None <-> In p [lit "Full Date"; lit "Month/Year Only"; lit "Year Only"])
  /\ (d = None <-> In p [lit "Missing"; lit "Unknown/Failed"]).
Proof.
  intros [[Hd Hp]|[Hd Hp]].
  - pose proof (precision_of_date p Hp) as Hn. split; [|split].
    + unfold In in *. tauto.
    + tauto.
    + tauto.
  - assert (~ In p [lit "Full Date"; lit "Month/Year Only"; lit "Year Only"]) as Hn
      by (intros H; exact (precision_of_date p H Hp)).
    split; [|split].
    + unfold In in *. tauto.
    + tauto.
    + tauto.
Qed.

(** C10. The pair returned for any input carries one of the five labels;
    the date is present exactly under "Full Date", "Month/Year Only" and
    "Year Only", and absent exactly under "Missing" and "Unknown/Failed". *)
Theorem parse_dob_date_iff_precision (dob_str : option pystr) :
  exists parsed_date precision,
    parse_dob_comprehensive U current_year dob_str = Ok (parsed_date, precision)
    /\ In precision [lit "Full Date"; lit "Month/Year Only"; lit "Year Only";
                     lit "Missing"; lit "Unknown/Failed"]
    /\ (parsed_date <> None <->
        In precision [lit "Full Date"; lit "Month/Year Only"; lit "Year Only"])
    /\ (parsed_date = None <->
        In precision [lit "Missing"; lit "Unknown/Failed"]).
Proof.
  destruct dob_str as [raw|].
  - rewrite parse_dob_rules.
    destruct (str_eqb _ _).
    + eexists _, _. split; [reflexivity|]. apply precision_labels.
      right. split; [reflexivity|]. left. reflexivity.
    + destruct (first_rule_cases (strip raw)) as [[t ->] | [[t ->] | [[t ->] | ->]]];
        eexists _, _; (split; [reflexivity|]); apply precision_labels;
        [left|left|left|right]; (split; [try discriminate; try reflexivity|]);
        unfold In; auto.
  - eexists _, _. split; [reflexivity|]. apply precision_labels.
    right. split; [reflexivity|]. left. reflexivity.
Qed.

(** C6. [parse_dob_comprehensive] returns a pair for every input and raises
    nothing. On an input that is not missing the three rules are tried in
    order on the stripped text, a rule that fails (no match, a value out of
    range, no such calendar date) hands over to the next one, and when all
    three fail the result is (no date, "Unknown/Failed"); so for
    "31/02/1980". *)
Theorem parse_dob_total (dob_str : option pystr) :
  (exists r, parse_dob_comprehensive U current_year dob_str = Ok r)
  /\ (forall raw,
        dob_str = Some raw ->
        str_eqb (lower U (strip raw)) (lit "nan") = false ->
        parse_dob_comprehensive U current_year dob_str
          = Ok (first_rule U current_year (strip raw))
        /\ (rule_full_date U current_year (strip raw) = None ->
            rule_month_year U current_year (strip raw) = None ->
            rule_year U current_year (strip raw) = None ->
            parse_dob_comprehensive U current_year dob_str
              = Ok (None, lit "Unknown/Failed")))
  /\ parse_dob_comprehensive U current_year (Some (lit "31/02/1980"))
     = Ok (None, lit "Unknown/Failed").
Proof.
  split; [|split].
  - destruct dob_str as [raw|]; [rewrite parse_dob_rules|]; eauto.
  - intros raw -> Hnan. rewrite parse_dob_rules, Hnan. split; [reflexivity|].
    intros H1 H2 H3. unfold first_rule. now rewrite H1, H2, H3.
  - rewrite parse_dob_rules. reflexivity.
Qed.

(** C5 as amended. A null input, and an input whose text is "nan" once
    stripped and lower-cased (so "nan" in any letter case, with white space
    around it), give (no date, "Missing"). The empty string is no such
    input: it gives (no date, "Unknown/Failed"). *)
Theorem parse_dob_missing :
  parse_dob_comprehensive U current_year None = Ok (None, lit "Missing")
  /\ (forall raw,
        lower U (strip raw) = lit "nan" ->
        parse_dob_comprehensive U current_year (Some raw) = Ok (None, lit "Missing"))
  /\ (forall pre post a b c,
        forallb isspace pre = true -> forallb isspace post = true ->
        In a (lit "nN") -> In b (lit "aA") -> In c (lit "nN") ->
        parse_dob_comprehensive U current_year (Some (pre ++ [a; b; c] ++ post))
          = Ok (None, lit "Missing"))
  /\ parse_dob_comprehensive U current_year (Some (lit ""))
     = Ok (None, lit "Unknown/Failed").
Proof.
  assert (Hnan : forall raw, lower U (strip raw) = lit "nan" ->
    parse_dob_comprehensive U current_year (Some raw) = Ok (None, lit "Missing")).
  { intros raw H. rewrite parse_dob_rules, H. reflexivity. }
  repeat split; auto.
  - intros pre post a b c Hpre Hpost Ha Hb Hc. apply Hnan.
    unfold strip.
    assert (isspace a = false /\ isspace c = false) as [Hsa Hsc].
    { cbn in Ha, Hc. destruct Ha as [<-|[<-|[]]], Hc as [<-|[<-|[]]]; split; reflexivity. }
    change (pre ++ [a; b; c] ++ post) with (pre ++ (a :: [b] ++ [c]) ++ post).
    rewrite (strip_by_padded isspace pre post a [b] c) by auto.
    change (a :: [b] ++ [c]) with [a; b; c].
    cbn in Ha, Hb, Hc.
    destruct Ha as [<-|[<-|[]]], Hb as [<-|[<-|[]]], Hc as [<-|[<-|[]]]; reflexivity.
Qed.

End DateOfBirthClaims.

Lemma parse_dob_empty_string_not_missing :
  parse_dob_comprehensive ascii_db 2026 (Some (lit "")) <> Ok (None, lit "Missing").
Proof. rewrite parse_dob_rules. vm_compute. discriminate. Qed.

(** ** The rules on text of the three shapes *)

Section DateOfBirthShapes.
Variable U : unicode_db.
Variable current_year : Z.




End DateOfBirthShapes.



Example parse_dob_examples (U : unicode_db) :
  parse_dob_comprehensive U 2026 (Some (lit "15/06/1980"))
    = Ok (Some {| year := 1980; month := 6; day := 15 |}, lit "Full Date")
  /\ parse_dob_comprehensive U 2026 (Some (lit "00/06/1980"))
    = Ok (Some {| year := 1980; month := 6; day := 1 |}, lit "Month/Year Only")
  /\ parse_dob_comprehensive U 2026 (Some (lit "00/00/1980"))
    = Ok (Some {| year := 1980; month := 1; day := 1 |}, lit "Year Only")
  /\ parse_dob_comprehensive U 2026 (Some (lit "29/02/1900"))
    = Ok (None, lit "Unknown/Failed").
Proof. repeat split; rewrite parse_dob_rules; reflexivity. Qed.

(** ** EntityAggregator: the canonical row *)

Definition has_alias_type (tag : pystr) (r : Row) : bool :=
  cell_eqb (Alias_Type (cols r)) tag.

(** The row that [aggregate_sanctions_data] binds to [primary_row]. *)
Definition primary_row_of (group : list Row) : list Row :=
  let primary_row := firstn 1 (List.filter (has_alias_type (lit "Primary name")) group) in
  let primary_row :=
    if Nat.eqb (length primary_row) 0
    then firstn 1 (List.filter (has_alias_type (lit "Primary name variation")) group)
    else primary_row in
  if Nat.eqb (length primary_row) 0 then firstn 1 group else primary_row.

(** [r] is the first row of [group], in the order of the frame, that
    satisfies [p]. *)
Definition first_with (p : Row -> bool) (group : list Row) (r : Row) : Prop :=
  exists before after,
    group = before ++ r :: after /\ p r = true
    /\ Forall (fun x => p x = false) before.

Lemma firstn_1_filter (p : Row -> bool) (group : list Row) :
  (firstn 1 (List.filter p group) = [] /\ Forall (fun x => p x = false) group)
  \/ (exists r, firstn 1 (List.filter p group) = [r] /\ first_with p group r).
Proof.
  induction group as [|x group IH]; simpl.
  - left. split; auto.
  - destruct (p x) eqn:Hx.
    + right. exists x. split; [reflexivity|]. exists [], group. auto.
    + destruct IH as [[E F]|(r & E & before & after & -> & Hr & F)].
      * left. split; auto.
      * right. exists r. split; auto. exists (x :: before), after. auto.
Qed.

Lemma primary_row_of_spec (group : list Row) :
  group <> [] ->
  exists r, primary_row_of group = [r]
    /\ (first_with (has_alias_type (lit "Primary name")) group r
        \/ (Forall (fun x => has_alias_type (lit "Primary name") x = false) group
            /\ first_with (has_alias_type (lit "Primary name variation")) group r)
        \/ (Forall (fun x => has_alias_type (lit "Primary name") x = false) group
            /\ Forall (fun x => has_alias_type (lit "Primary name variation") x = false) group
            /\ exists others, group = r :: others)).
Proof.
  intros Hne. unfold primary_row_of.
  destruct (firstn_1_filter (has_alias_type (lit "Primary name")) group)
    as [[-> F1]|(r & -> & H1)]; cbn [length Nat.eqb].
  - destruct (firstn_1_filter (has_alias_type (lit "Primary name variation")) group)
      as [[-> F2]|(r & -> & H2)]; cbn [length Nat.eqb].
    + destruct group as [|r others]; [congruence|].
      exists r. split; [reflexivity|]. right. right. eauto.
    + exists r. split; [reflexivity|]. right. left. auto.
  - exists r. split; [reflexivity|]. left. auto.
Qed.

Section EntityAggregator.
Variable U : unicode_db.

Lemma aggregate_primary_row (group : list Row) (r : Row) :
  primary_row_of group = [r] ->
  exists out,
    aggregate_sanctions_data U group = Ok out
    /\ Primary_Name out = Constructed_Name r
    /\ Primary_Name_Non_Latin out = Name_Non_Latin_Raw r
    /\ agg_Group_Type out = Group_Type (cols r)
    /\ agg_Regime out = Regime (cols r)
    /\ agg_Listed_On out = MText <$> Listed_On (cols r)
    /\ agg_UK_Sanctions_List_Date_Designated out
       = MText <$> UK_Sanctions_List_Date_Designated (cols r)
    /\ agg_Last_Updated out = MText <$> Last_Updated (cols r).
Proof.
  unfold primary_row_of, aggregate_sanctions_data, has_alias_type.
  set (P1 := firstn 1 (List.filter _ group)).
  set (P2 := firstn 1 (List.filter _ group)).
  cbv zeta.
  intros H.
  assert ((if Nat.eqb (length (if Nat.eqb (length P1) 0 then P2 else P1)) 0
           then r0 ← iloc0 group; Ok [r0]
           else Ok (if Nat.eqb (length P1) 0 then P2 else P1)) = Ok [r]) as ->.
  { destruct (Nat.eqb (length (if Nat.eqb (length P1) 0 then P2 else P1)) 0).
    - destruct group as [|x g]; [discriminate|]. cbn in H. injection H as ->. reflexivity.
    - now rewrite H. }
  cbn [mbind result_bind iloc0 map].
  eexists. split; [reflexivity|]. cbn [Primary_Name Primary_Name_Non_Latin agg_Group_Type
    agg_Regime agg_Listed_On agg_UK_Sanctions_List_Date_Designated agg_Last_Updated].
  repeat split.
Qed.

End EntityAggregator.

(** C1. For a group with at least one row, the row that supplies the primary
    name, the non-Latin primary name, the group type, the regime and the three
    metadata dates of the aggregated row is: the first row, in the order of
    the frame, whose alias type is "Primary name"; when there is none, the
    first whose alias type is "Primary name variation"; when there is none
    either, the first row of the group. *)
Theorem aggregate_canonical_row (U : unicode_db) (group : list Row) :
  group <> [] ->
  exists r out,
    (first_with (has_alias_type (lit "Primary name")) group r
     \/ (Forall (fun x => has_alias_type (lit "Primary name") x = false) group
         /\ first_with (has_alias_type (lit "Primary name variation")) group r)
     \/ (Forall (fun x => has_alias_type (lit "Primary name") x = false) group
         /\ Forall (fun x => has_alias_type (lit "Primary name variation") x = false) group
         /\ exists others, group = r :: others))
    /\ aggregate_sanctions_data U group = Ok out
    /\ Primary_Name out = Constructed_Name r
    /\ Primary_Name_Non_Latin out = Name_Non_Latin_Raw r
    /\ agg_Group_Type out = Group_Type (cols r)
    /\ agg_Regime out = Regime (cols r)
    /\ agg_Listed_On out = MText <$> Listed_On (cols r)
    /\ agg_UK_Sanctions_List_Date_Designated out
       = MText <$> UK_Sanctions_List_Date_Designated (cols r)
    /\ agg_Last_Updated out = MText <$> Last_Updated (cols r).
Proof.
  intros Hne.
  destruct (primary_row_of_spec group Hne) as (r & Hrow & Hsel).
  destruct (aggregate_primary_row U group r Hrow) as (out & Hout).
  exists r, out. split; [exact Hsel|exact Hout].
Qed.

Definition example_row (id : Z) (alias name : string) : Row :=
  {| cols :=
       {| Group_ID := Some id; Alias_Type := Some (lit alias);
          Group_Type := Some (lit "Individual"); Regime := Some (lit "Russia");
          Title := None; Name_1 := Some (lit name); Name_2 := None; Name_3 := None;
          Name_4 := None; Name_5 := None; Name_6 := None;
          Name_Non_Latin_Script := None; DOB := None; Country_of_Birth := None;
          Nationality := None; Country := None; Position := None;
          Passport_Number := None; National_Identification_Number := None;
          Address_1 := None; Address_2 := None; Address_3 := None; Address_4 := None;
          Address_5 := None; Address_6 := None; Post_Zip_Code := None;
          Listed_On := Some (lit "01/02/2020");
          UK_Sanctions_List_Date_Designated := None; Last_Updated := None |};
     DOB_raw := None; DOB_parsed := None; DOB_Precision := Some (lit "Missing");
     DOB_year := None; Constructed_Name := Some (lit name);
     Name_Non_Latin_Raw := None |}.

Lemma aggregate_canonical_row_witness :
  exists r out,
    (first_with (has_alias_type (lit "Primary name"))
       [example_row 7 "AKA" "Jon Smith"; example_row 7 "Primary name" "John Smith"] r
     \/ (Forall (fun x => has_alias_type (lit "Primary name") x = false)
           [example_row 7 "AKA" "Jon Smith"; example_row 7 "Primary name" "John Smith"]
         /\ first_with (has_alias_type (lit "Primary name variation"))
              [example_row 7 "AKA" "Jon Smith"; example_row 7 "Primary name" "John Smith"] r)
     \/ (Forall (fun x => has_alias_type (lit "Primary name") x = false)
           [example_row 7 "AKA" "Jon Smith"; example_row 7 "Primary name" "John Smith"]
         /\ Forall (fun x => has_alias_type (lit "Primary name variation") x = false)
              [example_row 7 "AKA" "Jon Smith"; example_row 7 "Primary name" "John Smith"]
         /\ exists others,
              [example_row 7 "AKA" "Jon Smith"; example_row 7 "Primary name" "John Smith"]
              = r :: others))
    /\ aggregate_sanctions_data ascii_db
         [example_row 7 "AKA" "Jon Smith"; example_row 7 "Primary name" "John Smith"]
       = Ok out
    /\ Primary_Name out = Constructed_Name r
    /\ Primary_Name_Non_Latin out = Name_Non_Latin_Raw r
    /\ agg_Group_Type out = Group_Type (cols r)
    /\ agg_Regime out = Regime (cols r)
    /\ agg_Listed_On out = MText <$> Listed_On (cols r)
    /\ agg_UK_Sanctions_List_Date_Designated out
       = MText <$> UK_Sanctions_List_Date_Designated (cols r)
    /\ agg_Last_Updated out = MText <$> Last_Updated (cols r).
Proof.
  apply (aggregate_canonical_row ascii_db
           [example_row 7 "AKA" "Jon Smith"; example_row 7 "Primary name" "John Smith"]).
  discriminate.
Defined.

(** ** The pipeline of [main] *)

Lemma mapM_Ok {A B} (f : A -> result B) (P : A -> B -> Prop) (l : list A) :
  (forall x, exists y, f x = Ok y /\ P x y) ->
  exists ys, mapM f l = Ok ys /\ Forall2 P l ys.
Proof.
  intros Hf. induction l as [|x l (ys & E & F)].
  - exists []. split; [reflexivity|constructor].
  - destruct (Hf x) as (y & Ey & Py). exists (y :: ys).
    cbn [mapM]. rewrite Ey. cbn [mbind result_bind]. rewrite E.
    split; [reflexivity|]. constructor; auto.
Qed.

Lemma mapM_Ok_Forall {A B} (f : A -> result B) (P : A -> B -> Prop) (l : list A) :
  Forall (fun x => exists y, f x = Ok y /\ P x y) l ->
  exists ys, mapM f l = Ok ys /\ Forall2 P l ys.
Proof.
  induction 1 as [|x l (y & Ey & Py) _ (ys & E & F)].
  - exists []. split; [reflexivity|constructor].
  - exists (y :: ys).
    cbn [mapM]. rewrite Ey. cbn [mbind result_bind]. rewrite E.
    split; [reflexivity|]. constructor; auto.
Qed.

Lemma Forall2_map_eq {A B C} (f : A -> C) (g : B -> C) (l : list A) (k : list B) :
  Forall2 (fun x y => f x = g y) l k -> map f l = map g k.
Proof. induction 1; simpl; congruence. Qed.


Section Pipeline.
Variable U : unicode_db.

Lemma prepare_row_Ok (current_year : Z) (raw : RawRow) :
  exists row, prepare_row U current_year raw = Ok row
              /\ Group_ID (cols row) = Group_ID raw.
Proof.
  unfold prepare_row.
  assert (exists d p, parse_dob_comprehensive U current_year (DOB raw) = Ok (d, p))
    as (d & p & ->).
  { destruct (DOB raw) as [s|]; [rewrite parse_dob_rules|cbn; eauto].
    destruct (str_eqb _ _); [eauto|].
    destruct (first_rule U current_year (strip s)) as [d p]. eauto. }
  cbn [mbind result_bind]. eexists. split; reflexivity.
Qed.

Lemma aggregate_Ok (group : list Row) :
  group <> [] -> exists out, aggregate_sanctions_data U group = Ok out.
Proof.
  intros Hne. destruct (primary_row_of_spec group Hne) as (r & Hrow & _).
  destruct (aggregate_primary_row U group r Hrow) as (out & E & _). eauto.
Qed.

(** The keys of the groups: the distinct identifiers, ascending. *)
Definition group_keys (df : list Row) : list Z :=
  merge_sort Z.le (unique (dropna (map (fun r => Group_ID (cols r)) df))).


Lemma In_group_keys (df : list Row) (k : Z) :
  In k (group_keys df) <-> In (Some k) (map (fun r => Group_ID (cols r)) df).
Proof.
  unfold group_keys. rewrite <- In_dropna.
  rewrite <- (In_unique (dropna (map (fun r => Group_ID (cols r)) df))).
  split; apply Permutation_in; [|symmetry]; apply merge_sort_Permutation.
Qed.

Lemma groupby_nonempty (df : list Row) :
  Forall (fun kg => snd kg <> []) (groupby_Group_ID df).
Proof.
  apply List.Forall_forall. intros [k g] Hin.
  unfold groupby_Group_ID in Hin. apply in_map_iff in Hin as (k' & [= <- <-] & Hk).
  fold (group_keys df) in Hk. apply In_group_keys, in_map_iff in Hk as (r & Hr & Hin).
  cbn [snd]. intros E.
  assert (In r (List.filter (fun r0 => bool_decide (Group_ID (cols r0) = Some k')) df)) as H
    by (apply filter_In; split; auto; now apply bool_decide_eq_true).
  rewrite E in H. destruct H.
Qed.

Lemma aggregate_groups_Ok (grouped : list (Z * list Row)) :
  Forall (fun kg => snd kg <> []) grouped ->
  exists structured,
    aggregate_groups U grouped = Ok structured
    /\ map agg_Group_ID structured = map Some (map fst grouped).
Proof.
  intros Hne. unfold aggregate_groups.
  destruct (mapM_Ok_Forall
              (fun kg => r ← aggregate_sanctions_data U (snd kg); Ok (set_Group_ID (fst kg) r))
              (fun kg row => agg_Group_ID row = Some (fst kg)) grouped)
    as (ys & E & F).
  - eapply List.Forall_impl; [|exact Hne]. intros [k g] Hg. cbn [fst snd] in *.
    destruct (aggregate_Ok g Hg) as (out & ->). cbn [mbind result_bind].
    eexists. split; reflexivity.
  - exists ys. split; [exact E|]. rewrite map_map. symmetry.
    apply Forall2_map_eq. eapply Forall2_impl; [exact F|]. auto.
Qed.

Lemma group_keys_Sorted (df : list Row) : Sorted Z.le (group_keys df).
Proof. apply Sorted_merge_sort. typeclasses eauto. Qed.

Lemma group_keys_NoDup (df : list Row) : List.NoDup (group_keys df).
Proof.
  eapply Permutation.Permutation_NoDup;
    [symmetry; apply merge_sort_Permutation|apply NoDup_unique].
Qed.



End Pipeline.



(** ** QualityGate: [run_final_checks] *)

Lemma has_duplicates_NoDup (keys : list (option Z)) :
  has_duplicates keys = false <-> List.NoDup keys.
Proof.
  induction keys as [|k keys IH]; simpl.
  - split; [constructor|reflexivity].
  - rewrite orb_false_iff, bool_decide_eq_false, IH, List.NoDup_cons_iff,
      list_elem_of_In. tauto.
Qed.




(** ** CountryNormalizer: [standardize_cell] *)

(** Stripping *)

Lemma drop_while_head {A} (p : A -> bool) (l : list A) :
  match drop_while p l with
  | [] => True
  | x :: _ => p x = false
  end.
Proof.
  induction l as [|x l IH]; simpl; auto. destruct (p x) eqn:E; auto.
Qed.

Lemma drop_while_id {A} (p : A -> bool) (l : list A) :
  match l with [] => True | x :: _ => p x = false end -> drop_while p l = l.
Proof. destruct l as [|x l]; simpl; auto. now intros ->. Qed.

Lemma drop_while_suffix {A} (p : A -> bool) (l : list A) :
  exists pre, l = pre ++ drop_while p l.
Proof.
  induction l as [|x l [pre IH]]; simpl.
  - now exists [].
  - destruct (p x); [exists (x :: pre); simpl; congruence|now exists []].
Qed.

Lemma strip_by_parts (p : char -> bool) (s : pystr) :
  exists pre post, s = pre ++ strip_by p s ++ post.
Proof.
  unfold strip_by, lstrip_by, rstrip_by.
  destruct (drop_while_suffix p s) as [pre Hpre].
  destruct (drop_while_suffix p (rev (drop_while p s))) as [post Hpost].
  exists pre, (rev post).
  rewrite <- rev_app_distr, <- Hpost, rev_involutive. exact Hpre.
Qed.

Lemma strip_by_idempotent (p : char -> bool) (s : pystr) :
  strip_by p (strip_by p s) = strip_by p s.
Proof.
  unfold strip_by, lstrip_by, rstrip_by.
  set (z := drop_while p s).
  set (D := drop_while p (rev z)).
  assert (drop_while p (rev D) = rev D) as ->.
  { apply drop_while_id.
    destruct (rev D) as [|x l] eqn:E; auto.
    (* x is the last character of D, a suffix of rev z, so the first of z *)
    destruct (drop_while_suffix p (rev z)) as [pre Hpre]. fold D in Hpre.
    assert (z = rev D ++ rev pre) as Hz
      by (rewrite <- rev_app_distr, <- Hpre, rev_involutive; reflexivity).
    rewrite E in Hz. simpl in Hz.
    pose proof (drop_while_head p s) as Hh. fold z in Hh. rewrite Hz in Hh. exact Hh. }
  rewrite rev_involutive. f_equal. apply drop_while_id.
  subst D. apply drop_while_head.
Qed.

(** The list delimiter inside a text *)

Fixpoint has_delim (s : pystr) : bool :=
  match s with
  | c :: s' =>
    match s' with
    | c2 :: _ => ((c =? 59) && (c2 =? 32)) || has_delim s'
    | [] => false
    end
  | [] => false
  end.

Lemma has_delim_app (a b : pystr) :
  has_delim (a ++ b) = false -> has_delim a = false /\ has_delim b = false.
Proof.
  induction a as [|c a IH]; simpl; auto.
  destruct a as [|c2 a]; simpl in *.
  - destruct b; auto. intros H. apply orb_false_iff in H as [_ H]. auto.
  - intros H. apply orb_false_iff in H as [H1 H2]. apply IH in H2 as [H2 H3].
    rewrite H1, H2. auto.
Qed.

Lemma has_delim_snoc (a : pystr) (c : char) :
  has_delim a = false ->
  (forall a' x, a = a' ++ [x] -> x = 59 -> c <> 32) ->
  has_delim (a ++ [c]) = false.
Proof.
  induction a as [|x a IH]; simpl; auto.
  intros H Hlast. destruct a as [|x2 a]; simpl in *.
  - rewrite orb_false_r. apply andb_false_iff.
    destruct (N.eqb_spec x 59); auto. right. apply N.eqb_neq.
    now apply (Hlast [] x).
  - apply orb_false_iff in H as [H1 H2]. rewrite H1. simpl. apply IH; auto.
    intros a' y E. apply (Hlast (x :: a') y). now rewrite E.
Qed.

Lemma has_delim_strip (p : char -> bool) (s : pystr) :
  has_delim s = false -> has_delim (strip_by p s) = false.
Proof.
  intros H. destruct (strip_by_parts p s) as (pre & post & E).
  rewrite E in H. apply has_delim_app in H as [_ H].
  now apply has_delim_app in H as [H _].
Qed.

Definition DELIM : pystr := [59; 32].

Lemma LIST_DELIMITER_eq : LIST_DELIMITER = DELIM.
Proof. reflexivity. Qed.

Lemma split_from_piece (t cur rest : pystr) :
  has_delim t = false ->
  split_from DELIM cur 0 (t ++ DELIM ++ rest)
  = (rev cur ++ t) :: split_from DELIM [] 0 rest.
Proof.
  revert cur. induction t as [|c t IH]; intros cur H.
  - simpl. rewrite app_nil_r. reflexivity.
  - assert (startswith DELIM ((c :: t) ++ DELIM ++ rest) = false) as Hs.
    { unfold DELIM. destruct t as [|c2 t]; cbn [startswith app has_delim] in *.
      - change (32 =? 59) with false. now rewrite andb_false_r.
      - apply orb_false_iff in H as [H _]. rewrite (N.eqb_sym 59), (N.eqb_sym 32).
        rewrite andb_true_r. exact H. }
    change ((c :: t) ++ DELIM ++ rest) with (c :: (t ++ DELIM ++ rest)) in *.
    cbn [split_from]. rewrite Hs.
    rewrite IH.
    + simpl. rewrite <- app_assoc. reflexivity.
    + destruct t; cbn [has_delim] in *; auto. now apply orb_false_iff in H.
Qed.

Lemma split_from_last (t cur : pystr) :
  has_delim t = false ->
  split_from DELIM cur 0 t = [rev cur ++ t].
Proof.
  revert cur. induction t as [|c t IH]; intros cur H.
  - simpl. rewrite app_nil_r. reflexivity.
  - assert (startswith DELIM (c :: t) = false) as Hs.
    { unfold DELIM. destruct t as [|c2 t]; cbn [startswith app has_delim] in *.
      - change (32 =? 59) with false. now rewrite andb_false_r.
      - apply orb_false_iff in H as [H _]. rewrite (N.eqb_sym 59), (N.eqb_sym 32).
        rewrite andb_true_r. exact H. }
    cbn [split_from]. rewrite Hs. rewrite IH.
    + simpl. rewrite <- app_assoc. reflexivity.
    + destruct t; cbn [has_delim] in *; auto. now apply orb_false_iff in H.
Qed.

Lemma split_join (parts : list pystr) :
  parts <> [] -> Forall (fun t => has_delim t = false) parts ->
  split DELIM (join DELIM parts) = parts.
Proof.
  intros Hne HF. unfold split. induction HF as [|t parts Ht HF IH]; [congruence|].
  destruct parts as [|t' parts].
  - simpl. now rewrite split_from_last.
  - change (join DELIM (t :: t' :: parts)) with (t ++ DELIM ++ join DELIM (t' :: parts)).
    rewrite split_from_piece by auto. simpl rev. simpl app at 1.
    f_equal. apply IH. discriminate.
Qed.

Lemma split_from_no_delim (s cur : pystr) (skip : nat) :
  has_delim (rev cur) = false ->
  (skip = 0%nat -> forall cur', cur = 59 :: cur' -> head s <> Some 32) ->
  (skip <> 0%nat -> cur = []) ->
  Forall (fun t => has_delim t = false) (split_from DELIM cur skip s).
Proof.
  revert cur skip. induction s as [|c s IH]; intros cur skip Hcur Hlast Hskip.
  - cbn [split_from]. constructor; auto.
  - cbn [split_from]. destruct skip as [|k].
    + destruct (startswith DELIM (c :: s)) eqn:Hs.
      * constructor; [exact Hcur|]. apply IH.
        -- reflexivity.
        -- intros H. vm_compute in H. discriminate H.
        -- reflexivity.
      * apply IH.
        -- cbn [rev]. apply has_delim_snoc; [exact Hcur|].
           intros a' x E -> ->.
           apply (Hlast eq_refl (rev a')); [|reflexivity].
           rewrite <- (rev_involutive cur), E, rev_app_distr. reflexivity.
        -- intros _ cur' [= -> <-]. intros Hh.
           destruct s as [|c2 s]; [discriminate|]. cbn [head] in Hh. injection Hh as ->.
           unfold DELIM in Hs. cbn [startswith] in Hs. discriminate Hs.
        -- congruence.
    + rewrite (Hskip ltac:(discriminate)) in *. apply IH.
      * reflexivity.
      * intros _ cur' [=].
      * reflexivity.
Qed.

Lemma split_no_delim (s : pystr) :
  Forall (fun t => has_delim t = false) (split DELIM s).
Proof.
  apply split_from_no_delim.
  - reflexivity.
  - intros _ cur' [=].
  - congruence.
Qed.

(** The replacement table *)

Definition settled (t : pystr) : Prop :=
  t <> [] /\ strip t = t /\ has_delim t = false
  /\ dict_get country_replacement_map t t = t.

Definition settledb (t : pystr) : bool :=
  negb (Nat.eqb (length t) 0) && str_eqb (strip t) t && negb (has_delim t)
  && str_eqb (dict_get country_replacement_map t t) t.

Lemma settledb_settled (t : pystr) : settledb t = true -> settled t.
Proof.
  unfold settledb, settled. rewrite !andb_true_iff, !negb_true_iff, !str_eqb_eq.
  intros [[[H1 H2] H3] H4]. repeat split; auto. intros ->. discriminate H1.
Qed.

Lemma replacement_values_settled :
  forallb (fun kv => settledb (snd kv)) country_replacement_map = true.
Proof. vm_compute. reflexivity. Qed.

Lemma dict_get_cases (d : list (pystr * pystr)) (k : pystr) :
  dict_get d k k = k \/ exists k', In (k', dict_get d k k) d.
Proof.
  induction d as [|[k0 v] d IH]; simpl; auto.
  destruct (str_eqb k0 k).
  - right. exists k0. auto.
  - destruct IH as [IH|[k' IH]]; auto. right. exists k'. auto.
Qed.

Lemma standardized_name_settled (piece : pystr) :
  has_delim piece = false ->
  let name := dict_get country_replacement_map (strip piece) (strip piece) in
  name <> [] -> settled name.
Proof.
  intros Hp name Hne.
  destruct (dict_get_cases country_replacement_map (strip piece)) as [E|[k' Hin]].
  - subst name. rewrite E in *. repeat split; auto.
    + apply strip_by_idempotent.
    + now apply has_delim_strip.
  - apply settledb_settled.
    pose proof replacement_values_settled as H.
    rewrite forallb_forall in H. apply (H _ Hin).
Qed.

(** The set of standardized names *)

Definition add_country (acc : list pystr) (country : pystr) : list pystr :=
  let standardized_name := dict_get country_replacement_map country country in
  if negb (Nat.eqb (length standardized_name) 0)
  then set_add acc standardized_name
  else acc.

Lemma fold_add_country_settled (pieces acc : list pystr) :
  Forall (fun t => has_delim t = false) pieces ->
  Forall settled acc -> List.NoDup acc ->
  Forall settled (fold_left add_country (map strip pieces) acc)
  /\ List.NoDup (fold_left add_country (map strip pieces) acc).
Proof.
  intros HF. revert acc. induction HF as [|p pieces Hp HF IH]; intros acc Ha Hnd.
  - simpl. auto.
  - cbn [map fold_left]. apply IH.
    + unfold add_country.
      destruct (Nat.eqb (length _) 0) eqn:E; cbn [negb]; auto.
      unfold set_add. destruct (str_in _ acc); auto.
      apply Forall_app. split; auto. constructor; [|constructor].
      apply standardized_name_settled; auto.
      intros E'. rewrite E' in E. discriminate.
    + unfold add_country.
      destruct (Nat.eqb (length _) 0); cbn [negb]; auto.
      unfold set_add. destruct (str_in _ acc) eqn:Hin; auto.
      apply NoDup_ListNoDup, NoDup_app.
      split; [now apply NoDup_ListNoDup|]. split; [|apply NoDup_singleton].
      intros x Hx. rewrite list_elem_of_In. intros [<-|[]].
      apply list_elem_of_In, str_in_In in Hx. congruence.
Qed.

Lemma fold_add_country_again (names acc : list pystr) :
  Forall settled names -> List.NoDup (acc ++ names) ->
  fold_left add_country (map strip names) acc = acc ++ names.
Proof.
  revert acc. induction names as [|t names IH]; intros acc HF Hnd.
  - simpl. now rewrite app_nil_r.
  - apply Forall_cons in HF as [(Hne & Hstrip & _ & Hget) HF].
    cbn [map fold_left]. rewrite Hstrip.
    assert (add_country acc t = acc ++ [t]) as ->.
    { unfold add_country. rewrite Hget.
      destruct t; [congruence|]. cbn [length Nat.eqb negb].
      unfold set_add. destruct (str_in _ acc) eqn:Hin; auto.
      apply str_in_In in Hin. apply List.NoDup_remove_2 in Hnd.
      exfalso. apply Hnd. apply in_or_app. auto. }
    rewrite IH; auto.
    + now rewrite <- app_assoc.
    + now rewrite <- app_assoc.
Qed.

Lemma standardize_cell_eq (text : pystr) :
  standardize_cell (Some text)
  = match fold_left add_country (map strip (split DELIM text)) [] with
    | [] => None
    | (_ :: _) as names => Some (join DELIM (sorted names))
    end.
Proof.
  unfold standardize_cell. cbv zeta. rewrite LIST_DELIMITER_eq.
  change (fold_left _ (map strip (split DELIM text)) [])
    with (fold_left add_country (map strip (split DELIM text)) []).
  destruct (fold_left add_country (map strip (split DELIM text)) []); reflexivity.
Qed.

(** C8. Standardizing a cell that is already the output of the
    standardization pass returns it unchanged: null stays null, and a delimited
    list of names, once split, mapped through the replacement table (unmapped
    names pass through), deduplicated, sorted and rejoined, is a fixed point of
    the same pass. *)
Theorem standardize_cell_idempotent (cell_value : option pystr) :
  standardize_cell (standardize_cell cell_value) = standardize_cell cell_value.
Proof.
  destruct cell_value as [text|]; [|reflexivity].
  rewrite (standardize_cell_eq text).
  destruct (fold_add_country_settled (split DELIM text) [])
    as [Hset Hnd]; [apply split_no_delim|constructor|constructor|].
  set (acc := fold_left add_country (map strip (split DELIM text)) []) in *.
  destruct acc as [|a acc'] eqn:Eacc; [reflexivity|]. rewrite <- Eacc in *.
  assert (Permutation (sorted acc) acc) as HP by apply sorted_Permutation.
  assert (Forall settled (sorted acc)) as Hset'.
  { apply List.Forall_forall. intros x Hx. rewrite List.Forall_forall in Hset.
    apply Hset. eapply Permutation_in; eauto. }
  assert (List.NoDup (sorted acc)) as Hnd'
    by (eapply Permutation.Permutation_NoDup; [symmetry; exact HP|exact Hnd]).
  assert (sorted acc <> []) as Hne.
  { intros E. rewrite E in HP. apply Permutation_nil in HP. congruence. }
  rewrite standardize_cell_eq, split_join; auto.
  - rewrite (fold_add_country_again (sorted acc) []) by auto.
    cbn [app]. destruct (sorted acc) as [|p l] eqn:E; [congruence|].
    rewrite <- E, (sorted_id (sorted acc)) by apply sorted_Sorted. reflexivity.
  - eapply List.Forall_impl; [|exact Hset']. intros t (_ & _ & H & _). exact H.
Qed.

(** * The row-level country cleanse

    [clean_country_string] takes its result from the first group of a
    pattern. The lemmas below follow the matcher through the pattern and
    compare the group with a direct reading of the text. *)

(** ** Repetition in the matcher *)



(** [x] is reached from [st] by reading [w], with the same groups. *)
Definition reads (st : mstate) (w : pystr) (x : mstate) : Prop :=
  rest st = w ++ rest x /\ pos x = (pos st + length w)%nat /\ groups x = groups st.


Lemma reads_length (st : mstate) (w : pystr) (x : mstate) :
  reads st w x -> length (rest st) = (length w + length (rest x))%nat.
Proof. intros (E & _). rewrite E. apply length_app. Qed.

Section StarOverClass.
Variable p : char -> bool.




End StarOverClass.









(** ** The country pattern *)




Section CountryPattern.
Variable U : unicode_db.









End CountryPattern.

Section CountryMatch.
Variable U : unicode_db.















End CountryMatch.





(** * Further properties of the helper functions and of the passes *)

(** ** The ends of a text *)

(** The first character of [s], if there is one, is not in the class [p]. *)
Definition starts_clean (p : char -> bool) (s : pystr) : Prop :=
  match s with
  | [] => True
  | a :: _ => p a = false
  end.

Definition ends_clean (p : char -> bool) (s : pystr) : Prop :=
  starts_clean p (rev s).

Lemma starts_clean_app (p : char -> bool) (a b : pystr) :
  a <> [] -> starts_clean p a -> starts_clean p (a ++ b).
Proof. destruct a; [congruence|auto]. Qed.

Lemma starts_clean_prefix (p : char -> bool) (a b : pystr) :
  starts_clean p (a ++ b) -> starts_clean p a.
Proof. destruct a; simpl; auto. Qed.

Lemma rstrip_by_prefix (p : char -> bool) (s : pystr) :
  exists post, s = rstrip_by p s ++ post.
Proof.
  unfold rstrip_by. destruct (drop_while_suffix p (rev s)) as [pre E].
  exists (rev pre). rewrite <- rev_app_distr, <- E. symmetry. apply rev_involutive.
Qed.

Lemma rstrip_by_ends (p : char -> bool) (s : pystr) : ends_clean p (rstrip_by p s).
Proof.
  unfold ends_clean, rstrip_by. rewrite rev_involutive. apply drop_while_head.
Qed.

Lemma rstrip_by_starts (q p : char -> bool) (s : pystr) :
  starts_clean q s -> starts_clean q (rstrip_by p s).
Proof.
  intros H. destruct (rstrip_by_prefix p s) as [post E].
  rewrite E in H. now apply starts_clean_prefix in H.
Qed.

Lemma strip_by_clean (p : char -> bool) (s : pystr) :
  starts_clean p (strip_by p s) /\ ends_clean p (strip_by p s).
Proof.
  unfold strip_by. split; [|apply rstrip_by_ends].
  apply rstrip_by_starts. unfold lstrip_by. apply drop_while_head.
Qed.

Lemma clean_strip_by (p : char -> bool) (s : pystr) :
  starts_clean p s -> ends_clean p s -> strip_by p s = s.
Proof.
  intros Hs He. unfold strip_by, lstrip_by, rstrip_by.
  rewrite (drop_while_id p s) by exact Hs.
  rewrite (drop_while_id p (rev s)) by exact He.
  apply rev_involutive.
Qed.

Lemma rev_nonempty {A} (l : list A) : l <> [] -> rev l <> [].
Proof.
  intros H E. apply H. rewrite <- (rev_involutive l), E. reflexivity.
Qed.

(** A text made of parts with clean ends has clean ends. *)
Lemma join_clean (p : char -> bool) (sep : pystr) (parts : list pystr) :
  parts <> [] ->
  Forall (fun t => t <> [] /\ starts_clean p t /\ ends_clean p t) parts ->
  join sep parts <> []
  /\ starts_clean p (join sep parts) /\ ends_clean p (join sep parts).
Proof.
  induction parts as [|t parts IH]; [congruence|]. intros _ Hall.
  inversion Hall as [|? ? (Hne & Hs & He) Hrest]; subst.
  destruct parts as [|t2 parts]; [cbn [join]; auto|].
  destruct IH as (Jne & Js & Je); [discriminate|exact Hrest|].
  change (join sep (t :: t2 :: parts)) with (t ++ sep ++ join sep (t2 :: parts)).
  split; [|split].
  - destruct t; [congruence|discriminate].
  - now apply starts_clean_app.
  - unfold ends_clean. rewrite !rev_app_distr, <- app_assoc.
    apply starts_clean_app; [now apply rev_nonempty|exact Je].
Qed.

(** ** [construct_full_name] *)

(** The cells that [construct_full_name] reads, in the order it reads them. *)
Definition name_cells (row : RawRow) : list (option pystr) :=
  [Title row; Name_1 row; Name_2 row; Name_3 row; Name_4 row; Name_5 row; Name_6 row].

Definition stripped_parts (cells : list (option pystr)) : list pystr :=
  flat_map (fun cell => match cell with Some n => [strip n] | None => [] end) cells.

Lemma construct_full_name_eq (row : RawRow) :
  construct_full_name row =
  match List.filter (fun part => negb (Nat.eqb (length part) 0))
                    (stripped_parts (name_cells row)) with
  | [] => None
  | (_ :: _) as name_parts => Some (join (lit " ") name_parts)
  end.
Proof.
  unfold construct_full_name, name_cells, stripped_parts.
  cbn [flat_map]. rewrite !app_nil_r.
  destruct (Title row); cbn [app];
    match goal with
    | |- context [List.filter ?f ?l] => destruct (List.filter f l)
    end; reflexivity.
Qed.

Lemma In_stripped_parts (cells : list (option pystr)) (part : pystr) :
  In part (stripped_parts cells) <-> exists n, In (Some n) cells /\ part = strip n.
Proof.
  unfold stripped_parts. rewrite in_flat_map. split.
  - intros ([n|] & Hin & Hp); [|destruct Hp].
    destruct Hp as [<-|[]]. eauto.
  - intros (n & Hin & ->). exists (Some n). split; [exact Hin|now left].
Qed.

Lemma construct_full_name_parts (row : RawRow) :
  exists parts,
    (forall t, In t parts <->
       t <> [] /\ exists n, In (Some n) (name_cells row) /\ t = strip n)
    /\ construct_full_name row =
       match parts with
       | [] => None
       | _ :: _ => Some (join (lit " ") parts)
       end.
Proof.
  exists (List.filter (fun part => negb (Nat.eqb (length part) 0))
            (stripped_parts (name_cells row))).
  split.
  - intros t. rewrite filter_In, In_stripped_parts.
    destruct t; simpl; intuition congruence.
  - rewrite construct_full_name_eq. destruct (List.filter _ _); reflexivity.
Qed.

(** X1. [construct_full_name] returns [None] exactly when every name cell of the
    row is null or holds white space only. *)
Theorem construct_full_name_none_iff (row : RawRow) :
  construct_full_name row = None <->
  forall n, In (Some n) (name_cells row) -> strip n = [].
Proof.
  destruct (construct_full_name_parts row) as (parts & Hin & ->).
  destruct parts as [|x l].
  - split; [|reflexivity]. intros _ n Hn.
    destruct (strip n) as [|c w] eqn:En; [reflexivity|].
    destruct (proj2 (Hin (c :: w))).
    split; [discriminate|]. exists n. split; [exact Hn|]. now rewrite En.
  - split; [discriminate|]. intros H. exfalso.
    destruct (proj1 (Hin x)) as (Hne & n & Hn & ->); [now left|].
    now apply Hne, H.
Qed.


Definition sample_names : RawRow :=
  {| Group_ID := Some 7%Z; Alias_Type := Some (lit "Primary name");
     Group_Type := Some (lit "Individual"); Regime := Some (lit "Russia");
     Title := Some (lit " Dr "); Name_1 := Some (lit "John ");
     Name_2 := Some (lit "  "); Name_3 := None;
     Name_4 := None; Name_5 := None; Name_6 := Some (lit "Smith");
     Name_Non_Latin_Script := None; DOB := Some (lit "00/06/1980");
     Country_of_Birth := Some (lit "(3) Russian Federation (1234)");
     Nationality := Some (lit "Russian"); Country := None; Position := None;
     Passport_Number := None; National_Identification_Number := None;
     Address_1 := Some (lit "1 High Street"); Address_2 := None;
     Address_3 := None; Address_4 := None;
     Address_5 := None; Address_6 := None; Post_Zip_Code := None;
     Listed_On := Some (lit "01/02/2020");
     UK_Sanctions_List_Date_Designated := None; Last_Updated := None |}.


(** ** The result of [clean_country_string] *)

(** X3. Whatever the text, a cleaned country is not empty, does not start with
    white space and does not end with a period, a comma or a space; a null
    cell stays null. *)
Theorem clean_country_string_result
  (U : unicode_db) (country_str : option pystr) (cleaned : pystr) :
  clean_country_string U country_str = Some cleaned ->
  country_str <> None
  /\ cleaned <> []
  /\ starts_clean isspace cleaned
  /\ ends_clean (in_chars (lit "., ")) cleaned.
Proof.
  unfold clean_country_string. destruct country_str as [s|]; [|discriminate].
  set (text := match re_match (country_extract_pattern U) s with
               | Some m => default [] (group m 1)
               | None => s
               end).
  replace (match re_match (country_extract_pattern U) s with
           | Some m => strip (default [] (group m 1))
           | None => strip s
           end) with (strip text)
    by (unfold text; destruct (re_match _ s); reflexivity).
  destruct (strip text) as [|c w] eqn:E; [discriminate|].
  cbn [length Nat.eqb negb].
  destruct (rstrip_by (in_chars (lit "., ")) (c :: w)) as [|c' w'] eqn:E';
    [discriminate|].
  cbn [length Nat.eqb negb]. intros [= <-].
  split; [discriminate|]. split; [discriminate|]. rewrite <- E'. split.
  - apply rstrip_by_starts. rewrite <- E. apply strip_by_clean.
  - apply rstrip_by_ends.
Qed.

Lemma clean_country_string_result_witness :
  clean_country_string ascii_db (Some (lit "(ab) Kazakh SSR., (12) x"))
  = Some (lit "Kazakh SSR")
  /\ Some (lit "(ab) Kazakh SSR., (12) x") <> None
  /\ lit "Kazakh SSR" <> []
  /\ starts_clean isspace (lit "Kazakh SSR")
  /\ ends_clean (in_chars (lit "., ")) (lit "Kazakh SSR").
Proof.
  split; [vm_compute; reflexivity|].
  apply (clean_country_string_result ascii_db
           (Some (lit "(ab) Kazakh SSR., (12) x")) (lit "Kazakh SSR")).
  vm_compute. reflexivity.
Defined.

(** ** [remove_lrm] *)

Lemma filter_filter {A} (p : A -> bool) (l : list A) :
  List.filter p (List.filter p l) = List.filter p l.
Proof.
  apply filter_all. intros x Hx. now apply filter_In in Hx.
Qed.

Definition without_lrm (s : pystr) : pystr :=
  List.filter (fun c => negb (c =? 8206)) s.

Lemma remove_lrm_cell_eq (s : pystr) :
  remove_lrm_cell (Some s) =
  if str_in (without_lrm s) [lit "nan"; lit "None"; lit "<NA>"; []]
  then None else Some (without_lrm s).
Proof. reflexivity. Qed.

Lemma without_lrm_idempotent (s : pystr) : without_lrm (without_lrm s) = without_lrm s.
Proof. apply filter_filter. Qed.

Lemma without_lrm_no_mark (s : pystr) : ~ In 8206 (without_lrm s).
Proof.
  intros H. apply filter_In in H as [_ H]. rewrite N.eqb_refl in H. discriminate.
Qed.

(** X4. A cell that [remove_lrm] leaves non-null holds no left-to-right mark, is
    not empty and is none of the texts "nan", "None" and "<NA>"; a null cell
    stays null; running the pass a second time changes nothing. *)
Theorem remove_lrm_cell_clean (cell : option pystr) :
  (forall s, remove_lrm_cell cell = Some s ->
     ~ In 8206 s /\ s <> []
     /\ s <> lit "nan" /\ s <> lit "None" /\ s <> lit "<NA>")
  /\ (cell = None -> remove_lrm_cell cell = None)
  /\ remove_lrm_cell (remove_lrm_cell cell) = remove_lrm_cell cell.
Proof.
  destruct cell as [s0|].
  2: { split; [intros s H; discriminate H|]. split; reflexivity. }
  rewrite remove_lrm_cell_eq.
  destruct (str_in (without_lrm s0) [lit "nan"; lit "None"; lit "<NA>"; []]) eqn:E.
  - split; [intros s H; discriminate H|]. split; [discriminate|reflexivity].
  - split; [|split; [discriminate|]].
    + intros s [= <-].
      assert (~ In (without_lrm s0) [lit "nan"; lit "None"; lit "<NA>"; []]) as Hn.
      { intros H. apply str_in_In in H. congruence. }
      split; [apply without_lrm_no_mark|].
      unfold In in Hn. repeat split; intros H; apply Hn; auto.
    + rewrite remove_lrm_cell_eq, without_lrm_idempotent, E. reflexivity.
Qed.

(** ** [clean_all_whitespace] *)

(** No two white-space characters in a row. *)
Fixpoint no_double_space (s : pystr) : bool :=
  match s with
  | c :: s' =>
    match s' with
    | c2 :: _ => negb (isspace c && isspace c2)
    | [] => true
    end && no_double_space s'
  | [] => true
  end.

Lemma no_double_space_cons (c : char) (s : pystr) :
  isspace c = false -> no_double_space s = true ->
  no_double_space (c :: s) = true /\
  forall x, no_double_space (x :: c :: s) = true.
Proof.
  intros Hc Hs.
  assert (no_double_space (c :: s) = true) as H1.
  { cbn [no_double_space]. rewrite Hc, Hs. destruct s; reflexivity. }
  split; [exact H1|]. intros x.
  change (negb (isspace x && isspace c) && no_double_space (c :: s) = true).
  rewrite Hc, H1, andb_false_r. reflexivity.
Qed.

Lemma collapse_spaces_from_no_double (s : pystr) :
  forall pending, no_double_space (collapse_spaces_from pending s) = true.
Proof.
  induction s as [|c s IH]; intros pending; cbn [collapse_spaces_from].
  - destruct pending as [[c0 [|]]|]; reflexivity.
  - destruct (isspace c) eqn:Hc; [apply IH|].
    destruct (no_double_space_cons c (collapse_spaces_from None s) Hc (IH None))
      as [H1 H2].
    destruct pending as [[c0 [|]]|]; cbn [flush_run app]; auto.
Qed.

Lemma collapse_spaces_from_id (t : pystr) :
  no_double_space t = true ->
  collapse_spaces_from None t = t
  /\ (starts_clean isspace t ->
      forall c, collapse_spaces_from (Some (c, false)) t = c :: t).
Proof.
  induction t as [|d t IH]; intros Hn.
  - split; [reflexivity|]. intros _ c. reflexivity.
  - cbn [no_double_space] in Hn. apply andb_true_iff in Hn as [Hd Hn].
    destruct (IH Hn) as [IH1 IH2].
    split.
    + cbn [collapse_spaces_from]. destruct (isspace d) eqn:Ed.
      * apply IH2. destruct t as [|d2 t]; [exact I|].
        cbn [starts_clean]. cbn [andb] in Hd. now apply negb_true_iff in Hd.
      * cbn [flush_run app]. now rewrite IH1.
    + cbn [starts_clean]. intros Ed c. cbn [collapse_spaces_from].
      rewrite Ed. cbn [flush_run app]. now rewrite IH1.
Qed.

Lemma collapse_spaces_from_last (t : pystr) (z : char) :
  isspace z = false ->
  forall pending, exists pre, collapse_spaces_from pending (t ++ [z]) = pre ++ [z].
Proof.
  intros Hz. induction t as [|c t IH]; intros pending; cbn [app collapse_spaces_from].
  - rewrite Hz. exists (flush_run pending). reflexivity.
  - destruct (isspace c); [apply IH|].
    destruct (IH None) as [pre ->].
    exists (flush_run pending ++ c :: pre). now rewrite <- app_assoc.
Qed.

Lemma collapse_spaces_clean (t : pystr) :
  t <> [] -> starts_clean isspace t -> ends_clean isspace t ->
  collapse_spaces t <> []
  /\ starts_clean isspace (collapse_spaces t)
  /\ ends_clean isspace (collapse_spaces t).
Proof.
  intros Hne Hs He. unfold collapse_spaces.
  assert (collapse_spaces_from None t <> [] /\
          starts_clean isspace (collapse_spaces_from None t)) as [H1 H2].
  { destruct t as [|a t]; [congruence|]. cbn [starts_clean] in Hs.
    cbn [collapse_spaces_from]. rewrite Hs. cbn [flush_run app starts_clean].
    split; [discriminate|exact Hs]. }
  split; [exact H1|]. split; [exact H2|].
  unfold ends_clean in *.
  destruct (rev t) as [|z r] eqn:Er.
  { apply rev_nonempty in Hne. congruence. }
  cbn [starts_clean] in He.
  assert (t = rev r ++ [z]) as -> by (rewrite <- (rev_involutive t), Er; reflexivity).
  destruct (collapse_spaces_from_last (rev r) z He None) as [pre ->].
  rewrite rev_app_distr. exact He.
Qed.

Lemma clean_whitespace_cell_cases (cell : option pystr) :
  clean_whitespace_cell cell = None
  \/ exists s, clean_whitespace_cell cell = Some s
               /\ s <> [] /\ strip s = s /\ collapse_spaces s = s
               /\ no_double_space s = true.
Proof.
  destruct cell as [s0|]; [|now left]. unfold clean_whitespace_cell.
  destruct (collapse_spaces (strip s0)) as [|c w] eqn:E; [now left|].
  right. exists (c :: w). split; [reflexivity|]. rewrite <- E.
  assert (strip s0 <> []) as Hne.
  { intros H. rewrite H in E. discriminate. }
  destruct (strip_by_clean isspace s0) as [Hs He].
  destruct (collapse_spaces_clean (strip s0) Hne Hs He) as (C1 & C2 & C3).
  pose proof (collapse_spaces_from_no_double (strip s0) None) as Hd.
  split; [exact C1|]. split; [now apply clean_strip_by|].
  split; [|exact Hd].
  now apply collapse_spaces_from_id.
Qed.

(** X5. A cell that [clean_all_whitespace] leaves non-null is not empty, has no
    white space at either end and holds no two white-space characters in a
    row. *)
Theorem clean_whitespace_cell_normal (cell : option pystr) (s : pystr) :
  clean_whitespace_cell cell = Some s ->
  cell <> None /\ s <> [] /\ strip s = s /\ no_double_space s = true.
Proof.
  intros H. split; [destruct cell; [discriminate|discriminate H]|].
  destruct (clean_whitespace_cell_cases cell) as [E|(s' & E & H1 & H2 & _ & H3)];
    rewrite E in H; [discriminate|].
  injection H as <-. auto.
Qed.

Lemma clean_whitespace_cell_normal_witness :
  clean_whitespace_cell (Some ([32; 9] ++ lit "a" ++ [32; 9; 32] ++ lit "b" ++ [9]
                               ++ lit "c" ++ [10]))
  = Some (lit "a b" ++ [9] ++ lit "c")
  /\ Some ([32; 9] ++ lit "a" ++ [32; 9; 32] ++ lit "b" ++ [9] ++ lit "c" ++ [10])
     <> None
  /\ lit "a b" ++ [9] ++ lit "c" <> []
  /\ strip (lit "a b" ++ [9] ++ lit "c") = lit "a b" ++ [9] ++ lit "c"
  /\ no_double_space (lit "a b" ++ [9] ++ lit "c") = true.
Proof.
  split; [vm_compute; reflexivity|].
  apply (clean_whitespace_cell_normal
           (Some ([32; 9] ++ lit "a" ++ [32; 9; 32] ++ lit "b" ++ [9] ++ lit "c" ++ [10]))
           (lit "a b" ++ [9] ++ lit "c")).
  vm_compute. reflexivity.
Defined.

(** X6. Running [clean_all_whitespace] a second time changes no cell. *)
Theorem clean_whitespace_cell_idempotent (cell : option pystr) :
  clean_whitespace_cell (clean_whitespace_cell cell) = clean_whitespace_cell cell.
Proof.
  destruct (clean_whitespace_cell_cases cell) as [E|(s & E & H1 & H2 & H3 & _)];
    rewrite E; [reflexivity|].
  unfold clean_whitespace_cell. rewrite H2, H3.
  destruct s; [congruence|reflexivity].
Qed.

(** ** The lists of [aggregate_sanctions_data] *)

Section AggregatedLists.
Variable U : unicode_db.

(** The names and the countries of the aggregated row, as the function
    computes them from the group and its primary row. *)
Lemma aggregate_lists (group : list Row) (r : Row) :
  primary_row_of group = [r] ->
  exists out,
    aggregate_sanctions_data U group = Ok out
    /\ Primary_Name out = Constructed_Name r
    /\ Aliases out
       = join_if LIST_DELIMITER
           (if truthy (Constructed_Name r)
            then sorted (set_minus (set_of (dropna (map Constructed_Name group)))
                                   (default [] (Constructed_Name r)))
            else sorted (set_of (dropna (map Constructed_Name group))))
    /\ Countries_of_Birth out
       = join_agg (get_unique_sorted_list U
                     (map (fun r => Country_of_Birth (cols r)) group))
    /\ Nationalities out
       = join_agg (get_unique_sorted_list U
                     (map (fun r => Nationality (cols r)) group))
    /\ Countries_Address out
       = join_agg (get_unique_sorted_list U (map (fun r => Country (cols r)) group))
    /\ All_Associated_Countries out
       = (let add := fun (agg : option (list pystr)) (s : list pystr) =>
                       match agg with
                       | Some l => set_update s l
                       | None => s
                       end in
          let s :=
            add (get_unique_sorted_list U (map (fun r => Country (cols r)) group))
              (add (get_unique_sorted_list U
                      (map (fun r => Nationality (cols r)) group))
                 (add (get_unique_sorted_list U
                         (map (fun r => Country_of_Birth (cols r)) group)) [])) in
          join_agg match s with
                   | [] => None
                   | _ :: _ => Some (sorted s)
                   end).
Proof.
  unfold primary_row_of, aggregate_sanctions_data, has_alias_type.
  set (P1 := firstn 1 (List.filter _ group)).
  set (P2 := firstn 1 (List.filter _ group)).
  cbv zeta.
  intros H.
  assert ((if Nat.eqb (length (if Nat.eqb (length P1) 0 then P2 else P1)) 0
           then r0 ← iloc0 group; Ok [r0]
           else Ok (if Nat.eqb (length P1) 0 then P2 else P1)) = Ok [r]) as ->.
  { destruct (Nat.eqb (length (if Nat.eqb (length P1) 0 then P2 else P1)) 0).
    - destruct group as [|x g]; [discriminate|]. cbn in H. injection H as ->. reflexivity.
    - now rewrite H. }
  cbn [mbind result_bind iloc0 map].
  eexists. split; [reflexivity|].
  cbn [Primary_Name Aliases Countries_of_Birth Nationalities Countries_Address
       All_Associated_Countries].
  repeat split.
Qed.

Lemma aggregate_Ok_primary_row (group : list Row) (out : AggRow) :
  aggregate_sanctions_data U group = Ok out ->
  group <> [] /\ exists r, primary_row_of group = [r].
Proof.
  intros H. assert (group <> []) as Hne.
  { intros ->. discriminate H. }
  split; [exact Hne|].
  destruct (primary_row_of_spec group Hne) as (r & Hr & _). eauto.
Qed.

End AggregatedLists.

(** X7. [aggregate_sanctions_data] fails on exactly one input, the empty group,
    and then with [IndexError] (from [group.iloc[[0]]]). *)
Theorem aggregate_sanctions_data_raises_iff
  (U : unicode_db) (group : list Row) (e : exn) :
  aggregate_sanctions_data U group = Raise e <-> group = [] /\ e = IndexError.
Proof.
  split.
  - intros H. destruct group as [|x g].
    + split; [reflexivity|]. change (Raise IndexError = Raise e :> result AggRow) in H.
      congruence.
    + destruct (primary_row_of_spec (x :: g)) as (r & Hr & _); [discriminate|].
      destruct (aggregate_lists U (x :: g) r Hr) as (out & E & _). congruence.
  - intros [-> ->]. reflexivity.
Qed.

Lemma NoDup_sorted (l : list pystr) : List.NoDup l -> List.NoDup (sorted l).
Proof.
  intros H. eapply Permutation.Permutation_NoDup; [|exact H].
  symmetry. apply sorted_Permutation.
Qed.

Lemma In_sorted (l : list pystr) (x : pystr) : In x (sorted l) <-> In x l.
Proof.
  split; apply Permutation.Permutation_in;
    [apply sorted_Permutation|symmetry; apply sorted_Permutation].
Qed.

(** X8. The aliases of an aggregated row are the distinct constructed names of
    the group other than the primary name, in ascending order; when the
    primary name is null or empty, all of them. *)
Theorem aggregate_aliases (U : unicode_db) (group : list Row) (out : AggRow) :
  aggregate_sanctions_data U group = Ok out ->
  exists aliases,
    Aliases out = join_if LIST_DELIMITER aliases
    /\ Sorted str_le aliases /\ List.NoDup aliases
    /\ forall n, In n aliases <->
         In (Some n) (map Constructed_Name group)
         /\ (truthy (Primary_Name out) = true -> Some n <> Primary_Name out).
Proof.
  intros H. destruct (aggregate_Ok_primary_row U group out H) as (_ & r & Hr).
  destruct (aggregate_lists U group r Hr) as (out' & E & Hp & Ha & _).
  rewrite E in H. injection H as <-. rewrite Ha, Hp.
  set (names := set_of (dropna (map Constructed_Name group))).
  assert (List.NoDup names) as Hnd by apply NoDup_unique.
  assert (forall n, In n names <-> In (Some n) (map Constructed_Name group)) as Hin.
  { intros n. unfold names, set_of. now rewrite In_unique, In_dropna. }
  destruct (truthy (Constructed_Name r)) eqn:Ht.
  - destruct (Constructed_Name r) as [p|]; [|discriminate]. cbn [default from_option id].
    exists (sorted (set_minus names p)). split; [reflexivity|].
    split; [apply sorted_Sorted|].
    split; [apply NoDup_sorted, List.NoDup_filter, Hnd|].
    intros n. rewrite In_sorted. unfold set_minus. rewrite filter_In, Hin.
    rewrite negb_true_iff.
    split.
    + intros [H1 H2]. split; [exact H1|]. intros _ [= ->].
      assert (str_eqb p p = true) by now apply str_eqb_eq. congruence.
    + intros [H1 H2]. split; [exact H1|].
      destruct (str_eqb n p) eqn:En; [|reflexivity].
      apply str_eqb_eq in En as ->. now destruct H2.
  - exists (sorted names). split; [reflexivity|].
    split; [apply sorted_Sorted|]. split; [now apply NoDup_sorted|].
    intros n. rewrite In_sorted, Hin. split; [|tauto].
    intros H1. split; [exact H1|]. discriminate.
Qed.

Definition group_of (rows : list RawRow) : list Row :=
  map (fun raw =>
         {| cols := raw; DOB_raw := DOB raw; DOB_parsed := None;
            DOB_Precision := Some (lit "Missing"); DOB_year := None;
            Constructed_Name := construct_full_name raw;
            Name_Non_Latin_Raw := Name_Non_Latin_Script raw |}) rows.

Definition sample_alias (alias name country : string) : RawRow :=
  {| Group_ID := Some 7%Z; Alias_Type := Some (lit alias);
     Group_Type := Some (lit "Individual"); Regime := Some (lit "Russia");
     Title := None; Name_1 := Some (lit name);
     Name_2 := None; Name_3 := None;
     Name_4 := None; Name_5 := None; Name_6 := None;
     Name_Non_Latin_Script := None; DOB := None;
     Country_of_Birth := Some (lit country);
     Nationality := Some (lit "Russia"); Country := None; Position := None;
     Passport_Number := None; National_Identification_Number := None;
     Address_1 := None; Address_2 := None;
     Address_3 := None; Address_4 := None;
     Address_5 := None; Address_6 := None; Post_Zip_Code := None;
     Listed_On := Some (lit "01/02/2020");
     UK_Sanctions_List_Date_Designated := None; Last_Updated := None |}.

Definition sample_group : list Row :=
  group_of [ sample_alias "AKA" "Jon Smith" "Ukraine";
             sample_alias "Primary name" "John Smith" "Belarus";
             sample_alias "AKA" "J Smith" "Ukraine";
             sample_alias "AKA" "John Smith" "Russia" ].

Definition sample_aggregate : AggRow :=
  match aggregate_sanctions_data ascii_db sample_group with
  | Ok out => out
  | Raise _ =>
    {| agg_Group_ID := None; Primary_Name := None; Aliases := None;
       Primary_Name_Non_Latin := None; Aliases_Non_Latin := None;
       agg_Group_Type := None; agg_Regime := None; DOB_Raw_Agg := None;
       DOB_Parsed_Agg := None; DOB_Year_Agg := None; DOB_Precision_Agg := None;
       Countries_of_Birth := None; Nationalities := None; Countries_Address := None;
       All_Associated_Countries := None; Positions := None;
       Passport_Numbers_Agg := None; National_IDs_Agg := None;
       Full_Address_Agg := None; agg_Listed_On := None;
       agg_UK_Sanctions_List_Date_Designated := None; agg_Last_Updated := None |}
  end.

Lemma sample_aggregate_Ok :
  aggregate_sanctions_data ascii_db sample_group = Ok sample_aggregate.
Proof. vm_compute. reflexivity. Qed.

Lemma aggregate_aliases_witness :
  Aliases sample_aggregate = Some (lit "J Smith; Jon Smith")
  /\ exists aliases,
       Aliases sample_aggregate = join_if LIST_DELIMITER aliases
       /\ Sorted str_le aliases /\ List.NoDup aliases
       /\ forall n, In n aliases <->
            In (Some n) (map Constructed_Name sample_group)
            /\ (truthy (Primary_Name sample_aggregate) = true ->
                Some n <> Primary_Name sample_aggregate).
Proof.
  split; [vm_compute; reflexivity|].
  apply (aggregate_aliases ascii_db sample_group sample_aggregate).
  vm_compute. reflexivity.
Defined.

(** X9. The column of all associated countries holds the countries of the three
    country columns of the aggregated row, each once, in ascending order. *)
Theorem aggregate_all_associated_countries
  (U : unicode_db) (group : list Row) (out : AggRow) :
  aggregate_sanctions_data U group = Ok out ->
  exists countries_birth nationalities countries_addr all_countries,
    countries_birth
      = get_unique_sorted_list U (map (fun r => Country_of_Birth (cols r)) group)
    /\ nationalities
      = get_unique_sorted_list U (map (fun r => Nationality (cols r)) group)
    /\ countries_addr
      = get_unique_sorted_list U (map (fun r => Country (cols r)) group)
    /\ Countries_of_Birth out = join_agg countries_birth
    /\ Nationalities out = join_agg nationalities
    /\ Countries_Address out = join_agg countries_addr
    /\ All_Associated_Countries out = join_if LIST_DELIMITER all_countries
    /\ Sorted str_le all_countries /\ List.NoDup all_countries
    /\ forall c, In c all_countries <->
         In c (default [] countries_birth) \/ In c (default [] nationalities)
         \/ In c (default [] countries_addr).
Proof.
  intros H. destruct (aggregate_Ok_primary_row U group out H) as (_ & r & Hr).
  destruct (aggregate_lists U group r Hr) as (out' & E & _ & _ & Hb & Hn & Ha & Hall).
  rewrite E in H. injection H as <-.
  set (cb := get_unique_sorted_list U (map (fun r => Country_of_Birth (cols r)) group)) in *.
  set (na := get_unique_sorted_list U (map (fun r => Nationality (cols r)) group)) in *.
  set (ca := get_unique_sorted_list U (map (fun r => Country (cols r)) group)) in *.
  cbv zeta in Hall.
  set (add := fun (agg : option (list pystr)) (s : list pystr) =>
                match agg with
                | Some l => set_update s l
                | None => s
                end) in *.
  assert (forall agg s, List.NoDup s -> List.NoDup (add agg s)) as Hnd.
  { intros [l|] s Hs; [apply NoDup_unique|exact Hs]. }
  assert (forall agg s c, In c (add agg s) <-> In c s \/ In c (default [] agg)) as Hin.
  { intros [l|] s c; unfold add; cbn [default from_option id].
    - unfold set_update. now rewrite In_unique, in_app_iff.
    - simpl. tauto. }
  exists cb, na, ca, (sorted (add ca (add na (add cb [])))).
  repeat (split; [first [reflexivity | assumption]|]).
  split.
  { rewrite Hall. destruct (add ca (add na (add cb []))); reflexivity. }
  split; [apply sorted_Sorted|].
  split; [apply NoDup_sorted; repeat apply Hnd; constructor|].
  intros c. rewrite In_sorted, !Hin. simpl. tauto.
Qed.

Lemma aggregate_all_associated_countries_witness :
  All_Associated_Countries sample_aggregate = Some (lit "Belarus; Russia; Ukraine")
  /\ exists countries_birth nationalities countries_addr all_countries,
    countries_birth
      = get_unique_sorted_list ascii_db
          (map (fun r => Country_of_Birth (cols r)) sample_group)
    /\ nationalities
      = get_unique_sorted_list ascii_db (map (fun r => Nationality (cols r)) sample_group)
    /\ countries_addr
      = get_unique_sorted_list ascii_db (map (fun r => Country (cols r)) sample_group)
    /\ Countries_of_Birth sample_aggregate = join_agg countries_birth
    /\ Nationalities sample_aggregate = join_agg nationalities
    /\ Countries_Address sample_aggregate = join_agg countries_addr
    /\ All_Associated_Countries sample_aggregate = join_if LIST_DELIMITER all_countries
    /\ Sorted str_le all_countries /\ List.NoDup all_countries
    /\ forall c, In c all_countries <->
         In c (default [] countries_birth) \/ In c (default [] nationalities)
         \/ In c (default [] countries_addr).
Proof.
  split; [vm_compute; reflexivity|].
  apply (aggregate_all_associated_countries ascii_db sample_group sample_aggregate).
  vm_compute. reflexivity.
Defined.

(** ** Dates that the script accepts *)

Lemma Timestamp_Ok (y m d : Z) (t : date) :
  Timestamp y m d = Ok t ->
  t = {| year := y; month := m; day := d |}
  /\ valid_ymd y m d = true /\ in_timestamp_bounds t = true.
Proof.
  unfold Timestamp. destruct (valid_ymd y m d); [|discriminate].
  destruct (in_timestamp_bounds _) eqn:E; [|discriminate].
  intros [= <-]. auto.
Qed.

(** A calendar date that a time stamp can hold. *)
Definition real_date (t : date) : Prop :=
  valid_ymd (year t) (month t) (day t) = true /\ in_timestamp_bounds t = true.

Lemma Timestamp_real (y m d : Z) (t : date) :
  Timestamp y m d = Ok t ->
  real_date t /\ year t = y /\ month t = m /\ day t = d.
Proof.
  intros H. apply Timestamp_Ok in H as (-> & H1 & H2).
  unfold real_date. cbn [year month day]. auto.
Qed.

Lemma to_datetime_real (U : unicode_db) (s : pystr) (t : date) :
  to_datetime_dmY U s = Ok (Some t) -> real_date t.
Proof.
  unfold to_datetime_dmY. destruct (_ || _); [discriminate|].
  destruct (re_match _ s) as [found|]; [|discriminate].
  destruct (negb _); [discriminate|].
  destruct (int U (group found 1)) as [d|e]; [|discriminate].
  destruct (int U (group found 2)) as [m|e]; [|discriminate].
  destruct (int U (group found 3)) as [y|e]; [|discriminate].
  cbn [mbind result_bind].
  destruct (Timestamp y m d) as [t'|e] eqn:E; [|discriminate].
  cbn [mbind result_bind]. intros [= <-]. now apply Timestamp_real in E.
Qed.

(** ** [convert_metadata_dates] *)


(** ** [run_final_checks] *)

Lemma existsb_false {A} (p : A -> bool) (l : list A) :
  existsb p l = false <-> forall x, In x l -> p x = false.
Proof.
  induction l as [|a l IH]; simpl; [tauto|].
  rewrite orb_false_iff, IH. split.
  - intros [Ha Hl] x [<-|Hx]; auto.
  - intros H. split; auto.
Qed.

Lemma filter_nil {A} (p : A -> bool) (l : list A) :
  List.filter p l = [] <-> forall x, In x l -> p x = false.
Proof.
  induction l as [|a l IH]; simpl; [tauto|].
  destruct (p a) eqn:Ha.
  - split; [discriminate|]. intros H. rewrite H in Ha by now left. discriminate.
  - rewrite IH. split.
    + intros H x [<-|Hx]; auto.
    + intros H x Hx. auto.
Qed.

Lemma isna_false {A} (v : option A) : isna v = false <-> v <> None.
Proof. destruct v; cbv; split; congruence. Qed.

(** X11. With [verbose] on, [run_final_checks] returns [True] exactly when no row
    has a null identifier, primary name, group type or regime, no two rows
    share an identifier, the identifier column has an integer dtype, and
    every group type is "Individual", "Entity" or "Ship". *)
Theorem run_final_checks_passes_iff (df : Frame) :
  run_final_checks df true = true <->
  (forall r, In r (rows df) ->
     agg_Group_ID r <> None /\ Primary_Name r <> None
     /\ agg_Group_Type r <> None /\ agg_Regime r <> None)
  /\ List.NoDup (map agg_Group_ID (rows df))
  /\ Group_ID_is_integer df = true
  /\ (forall r t, In r (rows df) -> agg_Group_Type r = Some t ->
        t = lit "Individual" \/ t = lit "Entity" \/ t = lit "Ship").
Proof.
  unfold run_final_checks. cbn [negb]. cbv zeta.
  set (expected := [lit "Individual"; lit "Entity"; lit "Ship"]).
  set (unexpected := List.filter (fun t => negb (str_in t expected)) _).
  set (nulls := _ || _).
  assert (nulls = false <->
          forall r, In r (rows df) ->
            agg_Group_ID r <> None /\ Primary_Name r <> None
            /\ agg_Group_Type r <> None /\ agg_Regime r <> None) as Hnulls.
  { unfold nulls. rewrite !orb_false_iff, !existsb_false.
    setoid_rewrite isna_false. split.
    - intros (((H1 & H2) & H3) & H4) r Hr. auto.
    - intros H. repeat split; intros r Hr; now apply H. }
  assert (unexpected = [] <->
          forall r t, In r (rows df) -> agg_Group_Type r = Some t ->
            t = lit "Individual" \/ t = lit "Entity" \/ t = lit "Ship") as Hunexp.
  { unfold unexpected. rewrite filter_nil. split.
    - intros H r t Hr Ht.
      assert (In t expected) as Hin.
      { apply str_in_In. apply negb_false_iff. apply H.
        apply In_unique, In_dropna, in_map_iff. eauto. }
      unfold expected, In in Hin. intuition auto.
    - intros H t Ht. apply In_unique, In_dropna, in_map_iff in Ht as (r & Hr & Hin).
      apply negb_false_iff, str_in_In. unfold expected, In.
      destruct (H r t Hin Hr) as [-> | [-> | ->]]; auto. }
  rewrite <- Hnulls, <- Hunexp, <- has_duplicates_NoDup.
  destruct unexpected as [|x l]; cbn [length Nat.eqb negb].
  - destruct (Group_ID_is_integer df), (has_duplicates _), nulls; cbn [negb];
      intuition congruence.
  - intuition congruence.
Qed.

(** ** The result of [standardize_cell] *)

Lemma str_eqb_refl (t : pystr) : str_eqb t t = true.
Proof. now apply str_eqb_eq. Qed.

Lemma dict_get_not_key (d : list (pystr * pystr)) (t : pystr) :
  forallb (fun kv => negb (str_eqb (fst kv) (snd kv))) d = true ->
  dict_get d t t = t <-> ~ In t (map fst d).
Proof.
  induction d as [|[k v] d IH]; cbn [forallb dict_get map fst snd In]; [tauto|].
  intros H. apply andb_true_iff in H as [Hkv Hd]. specialize (IH Hd).
  destruct (str_eqb k t) eqn:Ek.
  - apply str_eqb_eq in Ek. subst k. split.
    + intros ->. rewrite str_eqb_refl in Hkv. discriminate.
    + intros Hn. exfalso. apply Hn. now left.
  - rewrite IH. split.
    + intros Hn [->|Hin]; [|now apply Hn]. rewrite str_eqb_refl in Ek. discriminate.
    + intros Hn Hin. apply Hn. now right.
Qed.

Lemma replacement_keys_differ :
  forallb (fun kv => negb (str_eqb (fst kv) (snd kv))) country_replacement_map = true.
Proof. vm_compute. reflexivity. Qed.

(** A name in standard form: not empty, trimmed, without the delimiter, and
    not one of the variants that the replacement table maps. *)
Definition standard_name (t : pystr) : Prop :=
  t <> [] /\ strip t = t /\ has_delim t = false
  /\ ~ In t (map fst country_replacement_map).

Lemma settled_standard_name (t : pystr) : settled t <-> standard_name t.
Proof.
  unfold settled, standard_name.
  rewrite (dict_get_not_key country_replacement_map t replacement_keys_differ).
  tauto.
Qed.

Lemma standardize_cell_names (text out : pystr) :
  standardize_cell (Some text) = Some out ->
  exists names,
    out = join DELIM (sorted names) /\ names <> []
    /\ Forall settled names /\ List.NoDup names.
Proof.
  rewrite standardize_cell_eq.
  destruct (fold_add_country_settled (split DELIM text) [])
    as [Hs Hnd]; [apply split_no_delim|constructor|constructor|].
  destruct (fold_left add_country (map strip (split DELIM text)) []) as [|n names];
    [discriminate|].
  intros [= <-]. exists (n :: names). split; [reflexivity|].
  split; [discriminate|]. auto.
Qed.

Lemma sorted_nonempty (l : list pystr) : l <> [] -> sorted l <> [].
Proof.
  intros H E. apply H. apply Permutation_nil. rewrite <- E.
  apply sorted_Permutation.
Qed.

(** X12. A standardized cell is a list of names joined by the delimiter: at least
    one name, the names in ascending order, each once, each in standard
    form; no variant of the replacement table is left in it. *)
Theorem standardize_cell_result (cell_value : option pystr) (out : pystr) :
  standardize_cell cell_value = Some out ->
  exists names,
    out = join LIST_DELIMITER names /\ names <> []
    /\ Sorted str_le names /\ List.NoDup names
    /\ Forall standard_name names.
Proof.
  destruct cell_value as [text|]; [|discriminate]. intros H.
  destruct (standardize_cell_names text out H) as (names & -> & Hne & Hs & Hnd).
  exists (sorted names). split; [reflexivity|].
  split; [now apply sorted_nonempty|].
  split; [apply sorted_Sorted|].
  split.
  - eapply Permutation.Permutation_NoDup; [|exact Hnd].
    symmetry. apply sorted_Permutation.
  - apply List.Forall_forall. intros t Ht.
    apply settled_standard_name.
    rewrite List.Forall_forall in Hs. apply Hs.
    eapply Permutation.Permutation_in; [apply sorted_Permutation|exact Ht].
Qed.

Lemma standardize_cell_result_witness :
  standardize_cell (Some (lit "Russian Federation; Belarus; RUSSIA;  USSR ; "))
  = Some (lit "Belarus; Russia; Russia (USSR)")
  /\ exists names,
       lit "Belarus; Russia; Russia (USSR)" = join LIST_DELIMITER names
       /\ names <> []
       /\ Sorted str_le names /\ List.NoDup names
       /\ Forall standard_name names.
Proof.
  split; [vm_compute; reflexivity|].
  apply (standardize_cell_result
           (Some (lit "Russian Federation; Belarus; RUSSIA;  USSR ; "))
           (lit "Belarus; Russia; Russia (USSR)")).
  vm_compute. reflexivity.
Defined.

(** X13. A cell that is already such a list is left as it is. *)
Theorem standardize_cell_keeps_standard (names : list pystr) :
  names <> [] -> Sorted str_le names -> List.NoDup names ->
  Forall standard_name names ->
  standardize_cell (Some (join LIST_DELIMITER names))
  = Some (join LIST_DELIMITER names).
Proof.
  intros Hne Hs Hnd Hstd.
  assert (Forall settled names) as Hset.
  { eapply List.Forall_impl; [|exact Hstd]. intros t. apply settled_standard_name. }
  rewrite standardize_cell_eq, LIST_DELIMITER_eq.
  rewrite split_join; [|exact Hne|].
  2: { eapply List.Forall_impl; [|exact Hset]. intros t (_ & _ & H & _). exact H. }
  rewrite (fold_add_country_again names []) by auto.
  cbn [app]. destruct names as [|n names]; [congruence|].
  rewrite sorted_id by exact Hs. reflexivity.
Qed.

Lemma standardize_cell_keeps_standard_witness :
  standardize_cell (Some (join LIST_DELIMITER [lit "Belarus"; lit "Russia"]))
  = Some (join LIST_DELIMITER [lit "Belarus"; lit "Russia"]).
Proof.
  apply (standardize_cell_keeps_standard [lit "Belarus"; lit "Russia"]).
  - discriminate.
  - repeat constructor.
  - repeat constructor; unfold In.
    + intros [H|[]]. revert H. apply str_neq. vm_compute. reflexivity.
    + tauto.
  - repeat constructor; try discriminate; try (vm_compute; reflexivity).
    + intros H. apply str_in_In in H. vm_compute in H. discriminate.
    + intros H. apply str_in_In in H. vm_compute in H. discriminate.
Defined.

(** ** The dates of [parse_dob_comprehensive] *)

Section ParsedDates.
Variable U : unicode_db.
Variable current_year : Z.

Lemma in_year_range_bounds (y : Z) :
  in_year_range current_year y = true -> (1900 <= y <= current_year)%Z.
Proof.
  unfold in_year_range. rewrite andb_true_iff, !Z.leb_le. tauto.
Qed.

Lemma rule_full_date_range (s : pystr) (t : date) :
  rule_full_date U current_year s = Some t ->
  real_date t /\ (1900 <= year t <= current_year)%Z.
Proof.
  unfold rule_full_date. destruct (startswith _ s); [discriminate|].
  destruct (to_datetime_dmY U s) as [[t'|]|e] eqn:E; try discriminate.
  destruct (in_year_range current_year (year t')) eqn:R; [|discriminate].
  intros [= <-]. split; [now apply (to_datetime_real U s)|].
  now apply in_year_range_bounds.
Qed.

Lemma rule_month_year_range (s : pystr) (t : date) :
  rule_month_year U current_year s = Some t ->
  real_date t /\ (1900 <= year t <= current_year)%Z /\ day t = 1%Z.
Proof.
  unfold rule_month_year. destruct (re_match _ s) as [m|]; [|discriminate].
  destruct (int U (group m 1)) as [mo|e]; [|discriminate].
  destruct (int U (group m 2)) as [y|e]; [|discriminate].
  destruct (_ && _ && in_year_range current_year y) eqn:C; [|discriminate].
  apply andb_true_iff in C as [_ R].
  destruct (Timestamp y mo 1) as [t'|e] eqn:T; [|discriminate].
  intros [= <-]. apply Timestamp_real in T as (Hr & Hy & _ & Hd).
  rewrite Hy. split; [exact Hr|]. split; [now apply in_year_range_bounds|exact Hd].
Qed.

Lemma rule_year_range (s : pystr) (t : date) :
  rule_year U current_year s = Some t ->
  real_date t /\ (1900 <= year t <= current_year)%Z
  /\ day t = 1%Z /\ month t = 1%Z.
Proof.
  unfold rule_year. destruct (re_match _ s) as [m|]; [|discriminate].
  destruct (int U (group m 1)) as [y|e]; [|discriminate].
  destruct (in_year_range current_year y) eqn:R; [|discriminate].
  destruct (Timestamp y 1 1) as [t'|e] eqn:T; [|discriminate].
  intros [= <-]. apply Timestamp_real in T as (Hr & Hy & Hm & Hd).
  rewrite Hy. split; [exact Hr|]. split; [now apply in_year_range_bounds|auto].
Qed.

End ParsedDates.

(** X14. Every date that [parse_dob_comprehensive] returns is a calendar date
    whose year lies between 1900 and the current year. With the precision
    "Month/Year Only" it is the first day of a month, with "Year Only" the
    first of January. *)
Theorem parse_dob_date_in_range
  (U : unicode_db) (current_year : Z) (dob_str : option pystr)
  (parsed_date : date) (precision : pystr) :
  parse_dob_comprehensive U current_year dob_str = Ok (Some parsed_date, precision) ->
  real_date parsed_date
  /\ (1900 <= year parsed_date <= current_year)%Z
  /\ (precision = lit "Month/Year Only" -> day parsed_date = 1%Z)
  /\ (precision = lit "Year Only" ->
      day parsed_date = 1%Z /\ month parsed_date = 1%Z).
Proof.
  destruct dob_str as [raw|]; [|intros H; discriminate H].
  rewrite parse_dob_rules.
  destruct (str_eqb _ _); [intros H; discriminate H|].
  unfold first_rule.
  destruct (rule_full_date U current_year (strip raw)) as [t|] eqn:R1.
  { intros [= <- <-]. apply rule_full_date_range in R1 as [H1 H2].
    split; [exact H1|]. split; [exact H2|].
    split; intros E; exfalso; revert E; apply str_neq; vm_compute; reflexivity. }
  destruct (rule_month_year U current_year (strip raw)) as [t|] eqn:R2.
  { intros [= <- <-]. apply rule_month_year_range in R2 as (H1 & H2 & H3).
    split; [exact H1|]. split; [exact H2|]. split; [intros _; exact H3|].
    intros E; exfalso; revert E; apply str_neq; vm_compute; reflexivity. }
  destruct (rule_year U current_year (strip raw)) as [t|] eqn:R3.
  { intros [= <- <-]. apply rule_year_range in R3 as (H1 & H2 & H3 & H4).
    split; [exact H1|]. split; [exact H2|]. split; [intros _; exact H3|].
    intros _. split; [exact H3|exact H4]. }
  intros H; discriminate H.
Qed.

Lemma parse_dob_date_in_range_witness :
  parse_dob_comprehensive ascii_db 2026 (Some (lit "00/06/1980"))
  = Ok (Some {| year := 1980; month := 6; day := 1 |}, lit "Month/Year Only")
  /\ real_date {| year := 1980; month := 6; day := 1 |}
  /\ (1900 <= 1980 <= 2026)%Z
  /\ (lit "Month/Year Only" = lit "Month/Year Only" -> 1%Z = 1%Z)
  /\ (lit "Month/Year Only" = lit "Year Only" -> 1%Z = 1%Z /\ 6%Z = 1%Z).
Proof.
  split; [vm_compute; reflexivity|].
  apply (parse_dob_date_in_range ascii_db 2026 (Some (lit "00/06/1980"))
           {| year := 1980; month := 6; day := 1 |} (lit "Month/Year Only")).
  vm_compute. reflexivity.
Defined.

(** ** The table that [main] writes *)






Section PipelineOutput.
Variable U : unicode_db.

(** The passes of steps 6 to 10 on one aggregated row. *)
Definition finish_rows (structured : list AggRow) : list AggRow :=
  standardize_countries_in_agg_col
    (clean_all_whitespace
       (convert_metadata_dates U
          (remove_lrm (map drop_DOB_Raw_Agg structured)))).

Lemma main_steps (current_year : Z) (raw : list RawRow) :
  exists prepared structured,
    Forall2 (fun raw row => prepare_row U current_year raw = Ok row
                            /\ Group_ID (cols row) = Group_ID raw) raw prepared
    /\ aggregate_groups U (groupby_Group_ID prepared) = Ok structured
    /\ forall verbose, exists ready,
         main U verbose current_year raw
         = Ok {| is_ready := ready;
                 structured_sanctions :=
                   sort_values_Group_ID (finish_rows structured) |}.
Proof.
  destruct (mapM_Ok (prepare_row U current_year)
              (fun raw row => prepare_row U current_year raw = Ok row
                              /\ Group_ID (cols row) = Group_ID raw) raw)
    as (prepared & E1 & Hprep).
  { intros x. destruct (prepare_row_Ok U current_year x) as (row & E & Hid). eauto. }
  destruct (aggregate_groups_Ok U (groupby_Group_ID prepared) (groupby_nonempty prepared))
    as (structured & E2 & _).
  exists prepared, structured. split; [exact Hprep|]. split; [exact E2|].
  intros verbose. unfold main. rewrite E1. cbn [mbind result_bind].
  rewrite E2. cbn [mbind result_bind]. eexists. reflexivity.
Qed.

End PipelineOutput.


(** ** The cells of the table *)

(** The text columns of an aggregated row that the output keeps. *)
Definition text_cells (r : AggRow) : list (option pystr) :=
  [ Primary_Name r; Aliases r; Primary_Name_Non_Latin r; Aliases_Non_Latin r;
    agg_Group_Type r; agg_Regime r; DOB_Parsed_Agg r; DOB_Year_Agg r;
    DOB_Precision_Agg r; Countries_of_Birth r; Nationalities r;
    Countries_Address r; All_Associated_Countries r; Positions r;
    Passport_Numbers_Agg r; National_IDs_Agg r; Full_Address_Agg r ].

Definition date_cells (r : AggRow) : list (option meta_cell) :=
  [ agg_Listed_On r; agg_UK_Sanctions_List_Date_Designated r; agg_Last_Updated r ].

(** Not empty and without white space at either end. *)
Definition trimmed_text (cell : option pystr) : Prop :=
  forall s, cell = Some s -> s <> [] /\ strip s = s.

Lemma clean_whitespace_cell_trimmed (cell : option pystr) :
  trimmed_text (clean_whitespace_cell cell).
Proof.
  intros s H.
  destruct (clean_whitespace_cell_cases cell) as [E|(s' & E & H1 & H2 & _)];
    rewrite E in H; [discriminate|].
  injection H as <-. auto.
Qed.

Lemma trimmed_clean (t : pystr) :
  strip t = t -> starts_clean isspace t /\ ends_clean isspace t.
Proof. intros <-. apply strip_by_clean. Qed.

Lemma standardize_cell_trimmed (cell : option pystr) :
  trimmed_text (standardize_cell cell).
Proof.
  intros out H. destruct cell as [text|]; [|discriminate].
  destruct (standardize_cell_names text out H) as (names & -> & Hne & Hs & _).
  destruct (join_clean isspace DELIM (sorted names)) as (J1 & J2 & J3).
  - now apply sorted_nonempty.
  - apply List.Forall_forall. intros t Ht.
    rewrite List.Forall_forall in Hs.
    destruct (Hs t) as (H1 & H2 & _).
    { eapply Permutation.Permutation_in; [apply sorted_Permutation|exact Ht]. }
    split; [exact H1|]. now apply trimmed_clean.
  - split; [exact J1|]. now apply clean_strip_by.
Qed.

Lemma metadata_cell_final (U : unicode_db) (x : option pystr) :
  let cell :=
    map_meta_text clean_whitespace_cell
      (convert_metadata_cell U (map_meta_text remove_lrm_cell (MText <$> x))) in
  cell = None \/ exists d, cell = Some (MDate d) /\ real_date d.
Proof.
  cbv zeta.
  assert (exists y, map_meta_text remove_lrm_cell (MText <$> x) = MText <$> y) as [y ->].
  { destruct x as [s|]; cbn [fmap option_fmap option_map map_meta_text]; eauto. }
  destruct y as [s|]; cbn [fmap option_fmap option_map convert_metadata_cell];
    [|now left].
  destruct (to_datetime_dmY U s) as [[d|]|e] eqn:E; try (now left).
  right. exists d. split; [reflexivity|]. now apply (to_datetime_real U s).
Qed.

Section AggregatedDates.
Variable U : unicode_db.

Lemma aggregate_groups_dates (grouped : list (Z * list Row)) (structured : list AggRow) :
  Forall (fun kg => snd kg <> []) grouped ->
  aggregate_groups U grouped = Ok structured ->
  Forall (fun r => Forall (fun cell => exists x, cell = MText <$> x) (date_cells r))
         structured.
Proof.
  intros Hne E. unfold aggregate_groups in E.
  destruct (mapM_Ok_Forall
              (fun kg => r ← aggregate_sanctions_data U (snd kg); Ok (set_Group_ID (fst kg) r))
              (fun _ r => Forall (fun cell => exists x, cell = MText <$> x) (date_cells r))
              grouped)
    as (ys & E' & F).
  - eapply List.Forall_impl; [|exact Hne]. intros [k g] Hg. cbn [fst snd] in *.
    destruct (primary_row_of_spec g Hg) as (r & Hr & _).
    destruct (aggregate_primary_row U g r Hr)
      as (out & -> & _ & _ & _ & _ & H1 & H2 & H3).
    cbn [mbind result_bind]. eexists. split; [reflexivity|].
    unfold date_cells.
    cbn [set_Group_ID agg_Listed_On agg_UK_Sanctions_List_Date_Designated
         agg_Last_Updated].
    rewrite H1, H2, H3. repeat constructor; eauto.
  - rewrite E' in E. injection E as <-.
    clear E' Hne. induction F as [|kg r grouped ys H _ IH]; constructor;
      [exact H|exact IH].
Qed.

End AggregatedDates.

(** X16. In the table that [main] writes, a text cell is null or holds a text that
    is not empty and has no white space at either end; the column of raw
    dates of birth is gone; a metadata date is null or a calendar date, never
    text. *)
Theorem main_output_cells
  (U : unicode_db) (verbose : bool) (current_year : Z) (raw : list RawRow)
  (out : Output) (row : AggRow) :
  main U verbose current_year raw = Ok out ->
  In row (structured_sanctions out) ->
  Forall trimmed_text (text_cells row)
  /\ DOB_Raw_Agg row = None
  /\ Forall (fun cell => cell = None \/ exists d, cell = Some (MDate d) /\ real_date d)
            (date_cells row).
Proof.
  intros Hmain Hrow.
  destruct (main_steps U current_year raw) as (prepared & structured & _ & E2 & Hsteps).
  destruct (Hsteps verbose) as (ready & E). rewrite E in Hmain. injection Hmain as <-.
  cbn [structured_sanctions] in Hrow.
  pose proof (aggregate_groups_dates U _ _ (groupby_nonempty prepared) E2) as Hdates.
  unfold sort_values_Group_ID in Hrow.
  eapply Permutation.Permutation_in in Hrow; [|apply merge_sort_Permutation].
  unfold finish_rows, standardize_countries_in_agg_col, clean_all_whitespace,
    convert_metadata_dates, remove_lrm in Hrow.
  rewrite !map_map in Hrow. apply in_map_iff in Hrow as (r0 & <- & Hr0).
  rewrite List.Forall_forall in Hdates. specialize (Hdates r0 Hr0).
  unfold date_cells in Hdates.
  inversion Hdates as [|? ? [x1 H1] Hd2]; subst.
  inversion Hd2 as [|? ? [x2 H2] Hd3]; subst.
  inversion Hd3 as [|? ? [x3 H3] _]; subst.
  unfold text_cells, date_cells.
  cbn [map_text_columns drop_DOB_Raw_Agg Primary_Name Aliases Primary_Name_Non_Latin
       Aliases_Non_Latin agg_Group_Type agg_Regime DOB_Raw_Agg DOB_Parsed_Agg
       DOB_Year_Agg DOB_Precision_Agg Countries_of_Birth Nationalities
       Countries_Address All_Associated_Countries Positions Passport_Numbers_Agg
       National_IDs_Agg Full_Address_Agg agg_Listed_On
       agg_UK_Sanctions_List_Date_Designated agg_Last_Updated].
  split; [|split].
  - repeat (apply List.Forall_cons;
            [first [apply clean_whitespace_cell_trimmed
                   | apply standardize_cell_trimmed]|]).
    apply List.Forall_nil.
  - reflexivity.
  - rewrite H1, H2, H3.
    repeat (apply List.Forall_cons; [apply metadata_cell_final|]).
    apply List.Forall_nil.
Qed.

Definition sample_frame : list RawRow :=
  [ sample_alias "AKA" "Jon Smith" "Ukraine"; sample_names ].

Definition sample_output_row : AggRow :=
  {| agg_Group_ID := Some 7%Z;
     Primary_Name := Some (lit "Dr John Smith");
     Aliases := Some (lit "Jon Smith");
     Primary_Name_Non_Latin := None; Aliases_Non_Latin := None;
     agg_Group_Type := Some (lit "Individual");
     agg_Regime := Some (lit "Russia");
     DOB_Raw_Agg := None;
     DOB_Parsed_Agg := Some (lit "1980-06-01");
     DOB_Year_Agg := Some (lit "1980");
     DOB_Precision_Agg := Some (lit "Missing; Month/Year Only");
     Countries_of_Birth := Some (lit "Russia; Ukraine");
     Nationalities := Some (lit "Russia");
     Countries_Address := None;
     All_Associated_Countries := Some (lit "Russia; Ukraine");
     Positions := None; Passport_Numbers_Agg := None; National_IDs_Agg := None;
     Full_Address_Agg := Some (lit "1 High Street");
     agg_Listed_On := Some (MDate {| year := 2020; month := 2; day := 1 |});
     agg_UK_Sanctions_List_Date_Designated := None;
     agg_Last_Updated := None |}.

Lemma main_output_cells_witness :
  main ascii_db true 2026 sample_frame
  = Ok {| is_ready := true; structured_sanctions := [sample_output_row] |}
  /\ Forall trimmed_text (text_cells sample_output_row)
  /\ DOB_Raw_Agg sample_output_row = None
  /\ Forall (fun cell => cell = None \/ exists d, cell = Some (MDate d) /\ real_date d)
            (date_cells sample_output_row).
Proof.
  split; [vm_compute; reflexivity|].
  apply (main_output_cells ascii_db true 2026 sample_frame
           {| is_ready := true; structured_sanctions := [sample_output_row] |}
           sample_output_row).
  - vm_compute. reflexivity.
  - left. reflexivity.
Defined.

(** ** The left-to-right mark does not come back *)

(** The passes after [remove_lrm] build their texts from the characters of
    the cell, the space, the delimiter and the names of the replacement
    table. *)
Definition no_mark (s : pystr) : Prop := ~ In 8206 s.

Lemma strip_by_subset (p : char -> bool) (s : pystr) (c : char) :
  In c (strip_by p s) -> In c s.
Proof.
  intros H. destruct (strip_by_parts p s) as (pre & post & E).
  rewrite E. apply in_or_app. right. apply in_or_app. now left.
Qed.

Lemma collapse_spaces_from_subset (s : pystr) (c : char) :
  forall pending,
    In c (collapse_spaces_from pending s) ->
    c = 32 \/ In c s \/ exists many, pending = Some (c, many).
Proof.
  induction s as [|a s IH]; intros pending; cbn [collapse_spaces_from].
  - destruct pending as [[c0 [|]]|]; cbn [flush_run In]; intros H.
    + left. now destruct H.
    + right. right. destruct H as [<-|[]]. eauto.
    + destruct H.
  - destruct (isspace a).
    + intros H. apply IH in H as [H|[H|[many H]]]; auto.
      * right. left. now right.
      * destruct pending as [[c0 b]|]; injection H as <-.
        -- right. right. eauto.
        -- right. left. now left.
    + intros H. apply in_app_or in H as [H|H].
      * destruct pending as [[c0 [|]]|]; cbn [flush_run In] in H.
        -- left. now destruct H.
        -- right. right. destruct H as [<-|[]]. eauto.
        -- destruct H.
      * destruct H as [<-|H]; [right; left; now left|].
        apply IH in H as [H|[H|[many H]]]; auto; [|discriminate].
        right. left. now right.
Qed.

Lemma clean_whitespace_cell_no_mark (s0 s : pystr) :
  no_mark s0 -> clean_whitespace_cell (Some s0) = Some s -> no_mark s.
Proof.
  unfold clean_whitespace_cell, no_mark. intros H0.
  destruct (Nat.eqb _ 0); [discriminate|]. intros [= <-] H.
  apply collapse_spaces_from_subset in H as [H|[H|[many H]]]; try discriminate.
  now apply strip_by_subset in H.
Qed.

Lemma split_from_subset (sep : pystr) (s : pystr) (c : char) :
  forall cur skip piece,
    In piece (split_from sep cur skip s) -> In c piece -> In c cur \/ In c s.
Proof.
  induction s as [|a s IH]; intros cur skip piece; cbn [split_from].
  - intros [<-|[]] H. left. now apply in_rev.
  - destruct skip as [|k].
    + destruct (startswith sep (a :: s)).
      * intros [<-|Hp] H; [left; now apply in_rev|].
        destruct (IH _ _ _ Hp H) as [[]|H']. right. now right.
      * intros Hp H. destruct (IH _ _ _ Hp H) as [[<-|H']|H'].
        -- right. now left.
        -- now left.
        -- right. now right.
    + intros Hp H. destruct (IH _ _ _ Hp H) as [H'|H']; [now left|right; now right].
Qed.

Lemma replacement_values_no_mark :
  forallb (fun kv => forallb (fun c => negb (c =? 8206)) (snd kv))
          country_replacement_map = true.
Proof. vm_compute. reflexivity. Qed.

Lemma forallb_no_mark (s : pystr) :
  forallb (fun c => negb (c =? 8206)) s = true -> no_mark s.
Proof.
  intros H Hin. rewrite forallb_forall in H. specialize (H _ Hin).
  rewrite N.eqb_refl in H. discriminate.
Qed.

Lemma standardized_name_no_mark (country : pystr) :
  no_mark country -> no_mark (dict_get country_replacement_map country country).
Proof.
  intros H. destruct (dict_get_cases country_replacement_map country) as [->|[k Hk]];
    [exact H|].
  pose proof replacement_values_no_mark as Hv. rewrite forallb_forall in Hv.
  apply forallb_no_mark. exact (Hv _ Hk).
Qed.

Lemma fold_add_country_no_mark (countries acc : list pystr) :
  Forall no_mark countries -> Forall no_mark acc ->
  Forall no_mark (fold_left add_country countries acc).
Proof.
  revert acc. induction countries as [|x countries IH]; intros acc Hc Ha; [exact Ha|].
  inversion Hc as [|? ? Hx Hrest]; subst. cbn [fold_left]. apply IH; [exact Hrest|].
  unfold add_country. destruct (negb _); [|exact Ha].
  unfold set_add. destruct (str_in _ acc); [exact Ha|].
  apply Forall_app. split; [exact Ha|].
  constructor; [now apply standardized_name_no_mark|constructor].
Qed.

Lemma join_subset (sep : pystr) (parts : list pystr) (c : char) :
  In c (join sep parts) -> In c sep \/ exists part, In part parts /\ In c part.
Proof.
  induction parts as [|t parts IH]; [intros []|].
  destruct parts as [|t2 parts].
  - cbn [join]. intros H. right. exists t. split; [now left|exact H].
  - change (join sep (t :: t2 :: parts)) with (t ++ sep ++ join sep (t2 :: parts)).
    intros H. apply in_app_or in H as [H|H].
    + right. exists t. split; [now left|exact H].
    + apply in_app_or in H as [H|H]; [now left|].
      destruct (IH H) as [H'|(part & Hp & Hc)]; [now left|].
      right. exists part. split; [now right|exact Hc].
Qed.

Lemma standardize_cell_no_mark (text out : pystr) :
  no_mark text -> standardize_cell (Some text) = Some out -> no_mark out.
Proof.
  intros Ht. rewrite standardize_cell_eq.
  assert (Forall no_mark (fold_left add_country (map strip (split DELIM text)) []))
    as Hnames.
  { apply fold_add_country_no_mark; [|constructor].
    apply List.Forall_forall. intros t Hin.
    apply in_map_iff in Hin as (piece & <- & Hpiece).
    intros H. apply strip_by_subset in H.
    destruct (split_from_subset DELIM text 8206 [] 0%nat piece Hpiece H) as [[]|H'].
    now apply Ht. }
  destruct (fold_left add_country (map strip (split DELIM text)) []) as [|n names] eqn:E;
    [discriminate|].
  intros [= <-] H. apply join_subset in H as [H|(part & Hp & Hc)].
  - unfold DELIM, In in H. destruct H as [H|[H|[]]]; discriminate.
  - rewrite List.Forall_forall in Hnames. apply (Hnames part); [|exact Hc].
    eapply Permutation.Permutation_in; [apply sorted_Permutation|exact Hp].
Qed.

Lemma cleaned_cell_no_mark (cell : option pystr) (s : pystr) :
  clean_whitespace_cell (remove_lrm_cell cell) = Some s -> no_mark s.
Proof.
  destruct cell as [s0|]; [|discriminate]. rewrite remove_lrm_cell_eq.
  destruct (str_in _ _); [discriminate|].
  apply clean_whitespace_cell_no_mark, without_lrm_no_mark.
Qed.

Lemma standardized_cell_no_mark (cell : option pystr) (s : pystr) :
  standardize_cell (clean_whitespace_cell (remove_lrm_cell cell)) = Some s ->
  no_mark s.
Proof.
  destruct (clean_whitespace_cell (remove_lrm_cell cell)) as [t|] eqn:E;
    [|discriminate].
  apply standardize_cell_no_mark. now apply (cleaned_cell_no_mark cell).
Qed.

(** X17. No text cell of the table that [main] writes holds a left-to-right mark:
    the passes that run after [remove_lrm] do not bring it back. *)
Theorem main_output_no_lrm
  (U : unicode_db) (verbose : bool) (current_year : Z) (raw : list RawRow)
  (out : Output) (row : AggRow) :
  main U verbose current_year raw = Ok out ->
  In row (structured_sanctions out) ->
  Forall (fun cell => forall s, cell = Some s -> ~ In 8206 s) (text_cells row).
Proof.
  intros Hmain Hrow.
  destruct (main_steps U current_year raw) as (prepared & structured & _ & E2 & Hsteps).
  destruct (Hsteps verbose) as (ready & E). rewrite E in Hmain. injection Hmain as <-.
  cbn [structured_sanctions] in Hrow.
  unfold sort_values_Group_ID in Hrow.
  eapply Permutation.Permutation_in in Hrow; [|apply merge_sort_Permutation].
  unfold finish_rows, standardize_countries_in_agg_col, clean_all_whitespace,
    convert_metadata_dates, remove_lrm in Hrow.
  rewrite !map_map in Hrow. apply in_map_iff in Hrow as (r0 & <- & Hr0).
  unfold text_cells.
  cbn [map_text_columns drop_DOB_Raw_Agg Primary_Name Aliases Primary_Name_Non_Latin
       Aliases_Non_Latin agg_Group_Type agg_Regime DOB_Raw_Agg DOB_Parsed_Agg
       DOB_Year_Agg DOB_Precision_Agg Countries_of_Birth Nationalities
       Countries_Address All_Associated_Countries Positions Passport_Numbers_Agg
       National_IDs_Agg Full_Address_Agg].
  repeat (apply List.Forall_cons;
          [intros s Hs;
           first [exact (cleaned_cell_no_mark _ s Hs)
                 | exact (standardized_cell_no_mark _ s Hs)]|]).
  apply List.Forall_nil.
Qed.

Definition sample_marked : RawRow :=
  {| Group_ID := Some 9%Z; Alias_Type := Some (lit "Primary name");
     Group_Type := Some (lit "Entity"); Regime := Some (lit "Belarus");
     Title := None; Name_1 := Some (lit "Alpha" ++ [8206] ++ lit " Ltd");
     Name_2 := None; Name_3 := None;
     Name_4 := None; Name_5 := None; Name_6 := None;
     Name_Non_Latin_Script := None; DOB := None;
     Country_of_Birth := None;
     Nationality := None; Country := Some ([8206] ++ lit "Belarus");
     Position := None;
     Passport_Number := None; National_Identification_Number := None;
     Address_1 := None; Address_2 := None;
     Address_3 := None; Address_4 := None;
     Address_5 := None; Address_6 := None; Post_Zip_Code := None;
     Listed_On := None;
     UK_Sanctions_List_Date_Designated := None; Last_Updated := None |}.

Definition sample_marked_row : AggRow :=
  {| agg_Group_ID := Some 9%Z;
     Primary_Name := Some (lit "Alpha Ltd");
     Aliases := None;
     Primary_Name_Non_Latin := None; Aliases_Non_Latin := None;
     agg_Group_Type := Some (lit "Entity");
     agg_Regime := Some (lit "Belarus");
     DOB_Raw_Agg := None;
     DOB_Parsed_Agg := None;
     DOB_Year_Agg := None;
     DOB_Precision_Agg := Some (lit "Missing");
     Countries_of_Birth := None;
     Nationalities := None;
     Countries_Address := Some (lit "Belarus");
     All_Associated_Countries := Some (lit "Belarus");
     Positions := None; Passport_Numbers_Agg := None; National_IDs_Agg := None;
     Full_Address_Agg := None;
     agg_Listed_On := None;
     agg_UK_Sanctions_List_Date_Designated := None;
     agg_Last_Updated := None |}.

Lemma main_output_no_lrm_witness :
  main ascii_db true 2026 [sample_marked]
  = Ok {| is_ready := true; structured_sanctions := [sample_marked_row] |}
  /\ Forall (fun cell => forall s, cell = Some s -> ~ In 8206 s)
            (text_cells sample_marked_row).
Proof.
  split; [vm_compute; reflexivity|].
  apply (main_output_no_lrm ascii_db true 2026 [sample_marked]
           {| is_ready := true; structured_sanctions := [sample_marked_row] |}
           sample_marked_row).
  - vm_compute. reflexivity.
  - left. reflexivity.
Defined.
